(** * portage-action: the image mirroring action ([src/index.js])

    A shallow embedding of [run] and [getImageInfo] and the properties
    of the mirroring pipeline (pull, tag, push, inspect), of the batch
    loop and of the final report.

    The action talks to three collaborators that are not part of the
    repository: the workflow runtime ([@actions/core]), the container
    engine reached through [@actions/exec], and the JavaScript
    built-ins ([JSON.parse], [JSON.stringify], [String.prototype.trim],
    template literals).  The collaborators are the fields of the class
    [Host]; what the action does to them is recorded as a trace of
    [event]s. *)

From Stdlib Require Import List String Ascii Bool ZArith Lia.
From Stdlib Require Import Floats.PrimFloat.
From Stdlib Require Import DecimalString.
Import ListNotations.

Set Warnings "-register-all".
Local Open Scope list_scope.
Local Open Scope string_scope.

(** ** JavaScript values *)

(** The values [JSON.parse] can produce, plus [undefined] (the result
    of reading a property that is not there).  An object is the list
    of its own properties in enumeration order. *)
Inductive jsval : Type :=
| JUndefined
| JNull
| JBool (b : bool)
| JNumber (n : float)
| JString (s : string)
| JArray (elems : list jsval)
| JObject (props : list (string * jsval)).

(** Thrown values.  Everything the action throws or catches is an
    [Error] object, of which only [message] is ever read. *)
Record exn : Type := JsError { message : string }.

Definition dq : string := String "034"%char EmptyString.
Definition nl : string := String "010"%char EmptyString.

Definition str_truthy (s : string) : bool :=
  match s with EmptyString => false | String _ _ => true end.

(** ToBoolean. *)
Definition truthy (v : jsval) : bool :=
  match v with
  | JUndefined | JNull => false
  | JBool b => b
  | JNumber n => negb (PrimFloat.eqb n PrimFloat.zero || PrimFloat.is_nan n)
  | JString s => str_truthy s
  | JArray _ | JObject _ => true
  end.

Fixpoint own_property (k : string) (props : list (string * jsval)) : option jsval :=
  match props with
  | [] => None
  | (k', v) :: rest => if String.eqb k k' then Some v else own_property k rest
  end.

Definition TypeError_read (what k : string) : exn :=
  JsError ("Cannot read properties of " ++ what ++ " (reading '" ++ k ++ "')").

(** [v.k] for a property name [k] that no prototype defines (the action
    reads [source], [destination] and [architecture] only). *)
Definition get_prop (v : jsval) (k : string) : exn + jsval :=
  match v with
  | JUndefined => inl (TypeError_read "undefined" k)
  | JNull => inl (TypeError_read "null" k)
  | JObject props =>
      inr (match own_property k props with Some x => x | None => JUndefined end)
  | JBool _ | JNumber _ | JString _ | JArray _ => inr JUndefined
  end.

Definition TypeError_destructure (what k : string) : exn :=
  JsError ("Cannot destructure property '" ++ k ++ "' of 'images[i]' as it is "
           ++ what ++ ".").

(** One property of the destructuring pattern of line 50. *)
Definition destructure_prop (v : jsval) (k : string) : exn + jsval :=
  match v with
  | JUndefined => inl (TypeError_destructure "undefined" k)
  | JNull => inl (TypeError_destructure "null" k)
  | _ => get_prop v k
  end.

Definition TypeError_primitive : exn :=
  JsError "Cannot convert object to primitive value".

Definition has_own (k : string) (props : list (string * jsval)) : bool :=
  match own_property k props with Some _ => true | None => false end.

(** Decimal rendering of an integer ([Number.prototype.toString] on the
    counters and lengths of the action). *)
Definition dec (z : Z) : string := NilZero.string_of_int (Z.to_int z).

(** ** The host *)

(** What the action is run against.  [docker] answers one invocation
    of the container engine ([exec.exec('docker', args)] and
    [exec.getExecOutput('docker', args)], which is [exec.exec] with the
    standard output captured): the captured output, or the rejection. *)
Class Host : Type := {
  World : Type;
  getInput : string -> string;
  readFileSync : string -> exn + string;
  docker : list jsval -> World -> World * (exn + string);
  JSON_parse : string -> exn + jsval;
  QuoteJSONString : string -> string;
  Number_toString : float -> string;
  String_trim : string -> string
}.

(** ** Effects *)

Inductive event : Type :=
| Info (msg : string)
| Warning (msg : string)
| ErrorLog (msg : string)
| SetOutput (name value : string)
| SetFailed (msg : string)
| Docker (args : list jsval).

Section Action.

Context {H : Host}.

(** The template-literal conversion [`${v}`]. An object parsed from
    JSON converts to ["[object Object]"] unless it has an own
    [toString] property, which is never callable. *)
Fixpoint ToString (v : jsval) : exn + string :=
  match v with
  | JUndefined => inr "undefined"
  | JNull => inr "null"
  | JBool true => inr "true"
  | JBool false => inr "false"
  | JNumber n => inr (Number_toString n)
  | JString s => inr s
  | JArray elems =>
      (fix join (l : list jsval) : exn + string :=
         match l with
         | [] => inr EmptyString
         | e :: rest =>
             match (match e with
                    | JUndefined | JNull => inr EmptyString
                    | _ => ToString e
                    end) with
             | inl err => inl err
             | inr s =>
                 match rest with
                 | [] => inr s
                 | _ :: _ =>
                     match join rest with
                     | inl err => inl err
                     | inr r => inr (s ++ "," ++ r)
                     end
                 end
             end
         end) elems
  | JObject props =>
      if has_own "toString" props then inl TypeError_primitive
      else inr "[object Object]"
  end.

Definition is_finite (n : float) : bool :=
  negb (PrimFloat.is_nan n || PrimFloat.is_infinity n).

Fixpoint join_comma (l : list string) : string :=
  match l with
  | [] => EmptyString
  | [s] => s
  | s :: rest => s ++ "," ++ join_comma rest
  end.

(** SerializeJSONProperty: [None] is [undefined]. *)
Fixpoint SerializeJSONProperty (v : jsval) : option string :=
  match v with
  | JUndefined => None
  | JNull => Some "null"
  | JBool true => Some "true"
  | JBool false => Some "false"
  | JNumber n => Some (if is_finite n then Number_toString n else "null")
  | JString s => Some (QuoteJSONString s)
  | JArray elems =>
      Some ("[" ++ join_comma
              (map (fun e => match SerializeJSONProperty e with
                             | Some s => s
                             | None => "null"
                             end) elems) ++ "]")
  | JObject props =>
      Some ("{" ++ join_comma
              (flat_map (fun kv => match SerializeJSONProperty (snd kv) with
                                   | Some s => [QuoteJSONString (fst kv) ++ ":" ++ s]
                                   | None => []
                                   end) props) ++ "}")
  end.

(** [JSON.stringify] of an array. *)
Definition JSON_stringify_array (elems : list jsval) : string :=
  match SerializeJSONProperty (JArray elems) with
  | Some s => s
  | None => EmptyString
  end.

(** A computation over local variables [L]: it reads and changes the
    locals and the world, emits events, and returns or throws. *)
Record state (L : Type) : Type := mkState { locals : L; world : World }.
Arguments mkState {L}.
Arguments locals {L}.
Arguments world {L}.

Definition M (L A : Type) : Type := state L -> (exn + A) * state L * list event.

Definition ret {L A} (a : A) : M L A := fun st => (inr a, st, []).

Definition throw {L A} (e : exn) : M L A := fun st => (inl e, st, []).

Definition bind {L A B} (m : M L A) (f : A -> M L B) : M L B :=
  fun st =>
    match m st with
    | (inl e, st1, tr1) => (inl e, st1, tr1)
    | (inr a, st1, tr1) =>
        match f a st1 with
        | (r, st2, tr2) => (r, st2, (tr1 ++ tr2)%list)
        end
    end.

(** [try { body } catch (e) { handler e }]: what [body] did before it
    threw stays done. *)
Definition try_catch {L A} (body : M L A) (handler : exn -> M L A) : M L A :=
  fun st =>
    match body st with
    | (inl e, st1, tr1) =>
        match handler e st1 with
        | (r, st2, tr2) => (r, st2, (tr1 ++ tr2)%list)
        end
    | (inr a, st1, tr1) => (inr a, st1, tr1)
    end.

Definition lift {L A} (r : exn + A) : M L A := fun st => (r, st, []).

Definition emit {L} (e : event) : M L unit := fun st => (inr tt, st, [e]).

Definition get_locals {L} : M L L := fun st => (inr (locals st), st, []).

Definition update {L} (f : L -> L) : M L unit :=
  fun st => (inr tt, mkState (f (locals st)) (world st), []).

(** A call: the callee runs on locals of its own. *)
Definition call {L L' A} (init : L') (m : M L' A) : M L A :=
  fun st =>
    match m (mkState init (world st)) with
    | (r, st1, tr) => (r, mkState (locals st) (world st1), tr)
    end.

(** One invocation of the engine. *)
Definition docker_exec {L} (args : list jsval) : M L string :=
  fun st =>
    match docker args (world st) with
    | (w, r) => (r, mkState (locals st) w, [Docker args])
    end.

End Action.

Arguments mkState {H L} _ _.
Arguments locals {H L} _.
Arguments world {H L} _.

Declare Scope action_scope.
Delimit Scope action_scope with action.
Notation "x <- m ;; k" := (bind m (fun x => k))
  (at level 61, m at next level, right associativity) : action_scope.
Notation "m ;; k" := (bind m (fun _ => k))
  (at level 61, right associativity) : action_scope.
Local Open Scope action_scope.

(** ** The action *)

Section Program.

Context {H : Host}.

Definition info {L} (msg : string) : M L unit := emit (Info msg).
Definition warning {L} (msg : string) : M L unit := emit (Warning msg).
Definition error {L} (msg : string) : M L unit := emit (ErrorLog msg).
Definition setOutput {L} (name value : string) : M L unit := emit (SetOutput name value).
Definition setFailed {L} (msg : string) : M L unit := emit (SetFailed msg).

(** *** [getImageInfo] (lines 114-138) *)

Record imageInfo : Type := mkInfo { digest : string; size : string }.

Definition digest_args (image : jsval) : list jsval :=
  [JString "inspect"; JString "--format={{index .RepoDigests 0}}"; image].

Definition size_args (image : jsval) : list jsval :=
  [JString "inspect"; JString "--format={{.Size}}"; image].

Definition getImageInfo {L} (image : jsval) : M L imageInfo :=
  call (mkInfo EmptyString EmptyString)
    (try_catch
       (digestOutput <- docker_exec (digest_args image) ;;
        update (fun l => mkInfo (String_trim digestOutput) (size l)) ;;
        sizeOutput <- docker_exec (size_args image) ;;
        update (fun l => mkInfo (digest l) (String_trim sizeOutput)))
       (fun err => warning ("Could not retrieve image info: " ++ message err)) ;;
     get_locals).

(** *** [run] (lines 5-111) *)

Record run_locals : Type := mkLocals { results : list jsval; successCount : Z }.

Definition msg_no_input : string :=
  "Either " ++ dq ++ "images" ++ dq ++ " or " ++ dq ++ "images-file" ++ dq
  ++ " input must be provided".

Definition msg_both_inputs : string :=
  "Only one of " ++ dq ++ "images" ++ dq ++ " or " ++ dq ++ "images-file" ++ dq
  ++ " inputs should be provided, not both".

Definition msg_missing_field : string :=
  "Each image mapping must have " ++ dq ++ "source" ++ dq ++ ", " ++ dq
  ++ "destination" ++ dq ++ ", and " ++ dq ++ "architecture" ++ dq ++ " properties".

(** [Array.isArray(images) ? images : [images]]. *)
Definition as_array (v : jsval) : list jsval :=
  match v with
  | JArray elems => elems
  | _ => [v]
  end.

(** Lines 7-36: the two input channels and the parse. *)
Definition read_images {L} : M L (list jsval) :=
  let imagesInput := getInput "images" in
  let imagesFileInput := getInput "images-file" in
  if negb (str_truthy imagesInput) && negb (str_truthy imagesFileInput)
  then throw (JsError msg_no_input)
  else if str_truthy imagesInput && str_truthy imagesFileInput
  then throw (JsError msg_both_inputs)
  else
    try_catch
      (if str_truthy imagesInput then
         images <- lift (JSON_parse imagesInput) ;;
         ret (as_array images)
       else
         info ("Reading images from file: " ++ imagesFileInput) ;;
         fileContent <- lift (readFileSync imagesFileInput) ;;
         images <- lift (JSON_parse fileContent) ;;
         ret (as_array images))
      (fun parseError =>
         let source := if str_truthy imagesInput then "images input"
                       else "images file: " ++ imagesFileInput in
         throw (JsError ("Invalid images format in " ++ source
                         ++ ". Expected JSON array or object: "
                         ++ message parseError))).

(** Lines 39-41: the test of one element. *)
Definition check_image {L} (image : jsval) : M L unit :=
  source <- lift (get_prop image "source") ;;
  if negb (truthy source) then throw (JsError msg_missing_field)
  else
    destination <- lift (get_prop image "destination") ;;
    if negb (truthy destination) then throw (JsError msg_missing_field)
    else
      architecture <- lift (get_prop image "architecture") ;;
      if negb (truthy architecture) then throw (JsError msg_missing_field)
      else ret tt.

(** Lines 38-42. *)
Fixpoint validate {L} (images : list jsval) : M L unit :=
  match images with
  | [] => ret tt
  | image :: rest => check_image image ;; validate rest
  end.

Definition success_outcome (sourceImage destinationImage : jsval) (i : imageInfo) : jsval :=
  JObject [("source", sourceImage); ("destination", destinationImage);
           ("digest", JString (digest i)); ("size", JString (size i));
           ("status", JString "success")].

Definition failed_outcome (sourceImage destinationImage : jsval) (e : exn) : jsval :=
  JObject [("source", sourceImage); ("destination", destinationImage);
           ("digest", JString EmptyString); ("size", JString EmptyString);
           ("status", JString "failed"); ("error", JString (message e))].

Definition results_push (o : jsval) : M run_locals unit :=
  update (fun l => mkLocals (results l ++ [o])%list (successCount l)).

(** Lines 56-60. *)
Definition pull_args (sourceImage architecture : jsval) : list jsval :=
  let pullArgs := [JString "pull"] in
  let pullArgs := if truthy architecture
                  then (pullArgs ++ [JString "--platform"; architecture])%list
                  else pullArgs in
  (pullArgs ++ [sourceImage])%list.

Definition tag_args (sourceImage destinationImage : jsval) : list jsval :=
  [JString "tag"; sourceImage; destinationImage].

Definition push_args (destinationImage : jsval) : list jsval :=
  [JString "push"; destinationImage].

(** Lines 50-94: the body of the loop, for [images[i]] of [len] images. *)
Definition mirror_image (len i : Z) (image : jsval) : M run_locals unit :=
  sourceImage <- lift (destructure_prop image "source") ;;
  destinationImage <- lift (destructure_prop image "destination") ;;
  architecture <- lift (destructure_prop image "architecture") ;;
  try_catch
    (archInfo <- (if truthy architecture
                  then a <- lift (ToString architecture) ;; ret (" (" ++ a ++ ")")
                  else ret EmptyString) ;;
     src <- lift (ToString sourceImage) ;;
     dst <- lift (ToString destinationImage) ;;
     info (nl ++ "--- Processing image " ++ dec (i + 1) ++ "/" ++ dec len ++ ": "
           ++ src ++ " -> " ++ dst ++ archInfo ++ " ---") ;;
     src <- lift (ToString sourceImage) ;;
     info ("Pulling source image: " ++ src ++ archInfo) ;;
     docker_exec (pull_args sourceImage architecture) ;;
     dst <- lift (ToString destinationImage) ;;
     info ("Tagging image as: " ++ dst) ;;
     docker_exec (tag_args sourceImage destinationImage) ;;
     dst <- lift (ToString destinationImage) ;;
     info ("Pushing to destination registry: " ++ dst) ;;
     docker_exec (push_args destinationImage) ;;
     imageInfo <- getImageInfo destinationImage ;;
     results_push (success_outcome sourceImage destinationImage imageInfo) ;;
     update (fun l => mkLocals (results l) (successCount l + 1)) ;;
     src <- lift (ToString sourceImage) ;;
     dst <- lift (ToString destinationImage) ;;
     info ("✅ Successfully mirrored: " ++ src ++ " -> " ++ dst))
    (fun imageError =>
       src <- lift (ToString sourceImage) ;;
       dst <- lift (ToString destinationImage) ;;
       error ("❌ Failed to mirror " ++ src ++ " -> " ++ dst ++ ": "
              ++ message imageError) ;;
       results_push (failed_outcome sourceImage destinationImage imageError)).

(** Lines 49-95: [rest] is what is left of [images] from index [i] on. *)
Fixpoint mirror_loop (len i : Z) (rest : list jsval) : M run_locals unit :=
  match rest with
  | [] => ret tt
  | image :: rest' => mirror_image len i image ;; mirror_loop len (i + 1) rest'
  end.

(** Lines 97-106. *)
Definition report (len : Z) : M run_locals unit :=
  l <- get_locals ;;
  setOutput "results" (JSON_stringify_array (results l)) ;;
  setOutput "success-count" (dec (successCount l)) ;;
  setOutput "total-count" (dec len) ;;
  if (successCount l =? len)%Z
  then info ("🎉 All " ++ dec len ++ " image(s) mirrored successfully!")
  else
    error ("❌ " ++ dec (successCount l) ++ "/" ++ dec len
           ++ " image(s) mirrored successfully") ;;
    setFailed ("Failed to sync " ++ dec (len - successCount l) ++ " out of "
               ++ dec len ++ " image(s)").

Definition run : M run_locals unit :=
  try_catch
    (images <- read_images ;;
     validate images ;;
     let len := Z.of_nat (List.length images) in
     info ("Starting mirror process for " ++ dec len ++ " image(s)") ;;
     update (fun _ => mkLocals [] 0) ;;
     mirror_loop len 0 images ;;
     report len)
    (fun err => setFailed ("Action failed with error: " ++ message err)).

(** The action started in world [w]. *)
Definition run_action (w : World) : (exn + unit) * state run_locals * list event :=
  run (mkState (mkLocals [] 0) w).

End Program.

(** ** Observations *)

(** Views of a trace: the engine invocations, the outputs set, the
    failures signalled and the warnings logged, each in order. *)
Definition docker_calls (tr : list event) : list (list jsval) :=
  flat_map (fun e => match e with Docker args => [args] | _ => [] end) tr.

Definition outputs (tr : list event) : list (string * string) :=
  flat_map (fun e => match e with SetOutput k v => [(k, v)] | _ => [] end) tr.

Definition failures (tr : list event) : list string :=
  flat_map (fun e => match e with SetFailed msg => [msg] | _ => [] end) tr.

Definition warnings (tr : list event) : list string :=
  flat_map (fun e => match e with Warning msg => [msg] | _ => [] end) tr.

Definition error_logs (tr : list event) : list string :=
  flat_map (fun e => match e with ErrorLog msg => [msg] | _ => [] end) tr.

(** The value of a property of an element of the input ([undefined]
    where reading it throws). *)
Definition field (k : string) (v : jsval) : jsval :=
  match get_prop v k with
  | inr x => x
  | inl _ => JUndefined
  end.

Definition nonempty_string (v : jsval) : bool :=
  match v with
  | JString s => str_truthy s
  | _ => false
  end.

(** An Image Descriptor of the data model: an object whose [source],
    [destination] and [architecture] are non-empty strings. *)
Definition is_descriptor (v : jsval) : bool :=
  match v with
  | JObject _ =>
      nonempty_string (field "source" v)
      && nonempty_string (field "destination" v)
      && nonempty_string (field "architecture" v)
  | _ => false
  end.

(** The status of an outcome record. *)
Definition is_success (o : jsval) : bool :=
  match field "status" o with
  | JString s => String.eqb s "success"
  | _ => false
  end.

Definition is_failed (o : jsval) : bool :=
  match field "status" o with
  | JString s => String.eqb s "failed"
  | _ => false
  end.

Definition is_pull (args : list jsval) : bool :=
  match args with
  | JString s :: _ => String.eqb s "pull"
  | _ => false
  end.

Definition initial {H : Host} (w : World) : state run_locals :=
  mkState (mkLocals [] 0) w.

(** A test double for the host: the world counts the engine
    invocations; [answers] scripts the engine by invocation number. *)
Definition scripted_host (images images_file : string) (parsed : exn + jsval)
    (answers : nat -> exn + string) : Host :=
  {| World := nat;
     getInput := fun k => if String.eqb k "images" then images
                          else if String.eqb k "images-file" then images_file
                          else EmptyString;
     readFileSync := fun _ => inl (JsError "ENOENT: no such file or directory");
     docker := fun _ w => (S w, answers w);
     JSON_parse := fun _ => parsed;
     QuoteJSONString := fun s => dq ++ s ++ dq;
     Number_toString := fun _ => "0";
     String_trim := fun s => s |}.

(** ** Facts about traces and the monad *)

Section Facts.

Context {H : Host}.

Lemma docker_calls_app (a b : list event) :
  docker_calls (a ++ b) = (docker_calls a ++ docker_calls b)%list.
Proof. apply flat_map_app. Qed.

Lemma outputs_app (a b : list event) :
  outputs (a ++ b) = (outputs a ++ outputs b)%list.
Proof. apply flat_map_app. Qed.

Lemma failures_app (a b : list event) :
  failures (a ++ b) = (failures a ++ failures b)%list.
Proof. apply flat_map_app. Qed.

Lemma warnings_app (a b : list event) :
  warnings (a ++ b) = (warnings a ++ warnings b)%list.
Proof. apply flat_map_app. Qed.

Lemma error_logs_app (a b : list event) :
  error_logs (a ++ b) = (error_logs a ++ error_logs b)%list.
Proof. apply flat_map_app. Qed.

Lemma str_truthy_true (s : string) : str_truthy s = true <-> s <> EmptyString.
Proof. destruct s; simpl; split; congruence. Qed.

End Facts.

(** ** The input channels *)

Section Channels.

Context {H : Host}.

(** C9. If neither of the [images] and [images-file] inputs is
    supplied, or both are, the run ends with a configuration error:
    the only thing it does is signal the failure; the engine is never
    invoked, no outcome is recorded and no output is set. *)
Theorem run_rejects_channel_misuse (w : World) :
  (getInput "images" = EmptyString /\ getInput "images-file" = EmptyString)
  \/ (getInput "images" <> EmptyString /\ getInput "images-file" <> EmptyString) ->
  exists msg,
    run_action w = (inr tt, initial w, [SetFailed ("Action failed with error: " ++ msg)])
    /\ (msg = msg_no_input \/ msg = msg_both_inputs)
    /\ results (locals (snd (fst (run_action w)))) = []
    /\ docker_calls (snd (run_action w)) = []
    /\ outputs (snd (run_action w)) = [].
Proof.
  intros [[Hi Hf] | [Hi Hf]].
  - exists msg_no_input.
    assert (E : run_action w
                = (inr tt, initial w,
                   [SetFailed ("Action failed with error: " ++ msg_no_input)])).
    { unfold run_action, run, try_catch, bind, read_images.
      rewrite Hi, Hf. reflexivity. }
    rewrite E. repeat split; auto.
  - exists msg_both_inputs.
    apply str_truthy_true in Hi, Hf.
    assert (E : run_action w
                = (inr tt, initial w,
                   [SetFailed ("Action failed with error: " ++ msg_both_inputs)])).
    { unfold run_action, run, try_catch, bind, read_images.
      rewrite Hi, Hf. reflexivity. }
    rewrite E. repeat split; auto.
Qed.

End Channels.

(** Neither channel supplied. *)
Definition no_input_host : Host :=
  scripted_host EmptyString EmptyString (inr (JArray [])) (fun _ => inr EmptyString).

Lemma run_rejects_channel_misuse_witness :
  exists msg,
    @run_action no_input_host 0%nat
    = (inr tt, @initial no_input_host 0%nat,
       [SetFailed ("Action failed with error: " ++ msg)])
    /\ (msg = msg_no_input \/ msg = msg_both_inputs)
    /\ results (locals (snd (fst (@run_action no_input_host 0%nat)))) = []
    /\ docker_calls (snd (@run_action no_input_host 0%nat)) = []
    /\ outputs (snd (@run_action no_input_host 0%nat)) = [].
Proof.
  apply (@run_rejects_channel_misuse no_input_host 0%nat).
  left. split; reflexivity.
Defined.

(** ** The inspect step *)

Section Inspect.

Context {H : Host}.

Definition inspect_warning (e : exn) : string :=
  "Could not retrieve image info: " ++ message e.

Lemma getImageInfo_digest_fails {L} (image : jsval) (st : state L) (w1 : World) (e : exn) :
  docker (digest_args image) (world st) = (w1, inl e) ->
  getImageInfo image st
  = (inr (mkInfo EmptyString EmptyString), mkState (locals st) w1,
     [Docker (digest_args image); Warning (inspect_warning e)]).
Proof.
  intros Hd.
  unfold getImageInfo, call, try_catch, bind, docker_exec, update, warning, emit,
    get_locals.
  cbn [world locals]. rewrite Hd. reflexivity.
Qed.

Lemma getImageInfo_size_fails {L} (image : jsval) (st : state L)
    (w1 w2 : World) (o : string) (e : exn) :
  docker (digest_args image) (world st) = (w1, inr o) ->
  docker (size_args image) w1 = (w2, inl e) ->
  getImageInfo image st
  = (inr (mkInfo (String_trim o) EmptyString), mkState (locals st) w2,
     [Docker (digest_args image); Docker (size_args image);
      Warning (inspect_warning e)]).
Proof.
  intros Hd Hs.
  unfold getImageInfo, call, try_catch, bind, docker_exec, update, warning, emit,
    get_locals.
  cbn [world locals]. rewrite Hd. cbn [world locals]. rewrite Hs. reflexivity.
Qed.

Lemma getImageInfo_both {L} (image : jsval) (st : state L)
    (w1 w2 : World) (o1 o2 : string) :
  docker (digest_args image) (world st) = (w1, inr o1) ->
  docker (size_args image) w1 = (w2, inr o2) ->
  getImageInfo image st
  = (inr (mkInfo (String_trim o1) (String_trim o2)), mkState (locals st) w2,
     [Docker (digest_args image); Docker (size_args image)]).
Proof.
  intros Hd Hs.
  unfold getImageInfo, call, try_catch, bind, docker_exec, update, warning, emit,
    get_locals.
  cbn [world locals]. rewrite Hd. cbn [world locals]. rewrite Hs. reflexivity.
Qed.

(** How the engine answers the inspect step started in world [w]: the
    world it ends in, the information retrieved, the queries made, and
    the error caught (if any). *)
Inductive inspection (image : jsval) (w : World)
  : World -> imageInfo -> list (list jsval) -> option exn -> Prop :=
| inspect_both w1 o1 w2 o2 :
    docker (digest_args image) w = (w1, inr o1) ->
    docker (size_args image) w1 = (w2, inr o2) ->
    inspection image w w2 (mkInfo (String_trim o1) (String_trim o2))
      [digest_args image; size_args image] None
| inspect_no_digest w1 e :
    docker (digest_args image) w = (w1, inl e) ->
    inspection image w w1 (mkInfo EmptyString EmptyString)
      [digest_args image] (Some e)
| inspect_no_size w1 o1 w2 e :
    docker (digest_args image) w = (w1, inr o1) ->
    docker (size_args image) w1 = (w2, inl e) ->
    inspection image w w2 (mkInfo (String_trim o1) EmptyString)
      [digest_args image; size_args image] (Some e).

Lemma inspection_total (image : jsval) (w : World) :
  exists w' i calls err, inspection image w w' i calls err.
Proof.
  destruct (docker (digest_args image) w) as [w1 [e | o1]] eqn:Hd.
  - do 4 eexists. eapply inspect_no_digest; eauto.
  - destruct (docker (size_args image) w1) as [w2 [e | o2]] eqn:Hs.
    + do 4 eexists. eapply inspect_no_size; eauto.
    + do 4 eexists. eapply inspect_both; eauto.
Qed.

Lemma getImageInfo_inspection {L} (image : jsval) (st : state L)
    (w' : World) (i : imageInfo) (calls : list (list jsval)) (err : option exn) :
  inspection image (world st) w' i calls err ->
  exists tr,
    getImageInfo image st = (inr i, mkState (locals st) w', tr)
    /\ docker_calls tr = calls
    /\ warnings tr = match err with Some e => [inspect_warning e] | None => [] end
    /\ outputs tr = [] /\ failures tr = [] /\ error_logs tr = [].
Proof.
  intros [w1 o1 w2 o2 Hd Hs | w1 e Hd | w1 o1 w2 e Hd Hs].
  - rewrite (getImageInfo_both _ _ _ _ _ _ Hd Hs). eexists. repeat split.
  - rewrite (getImageInfo_digest_fails _ _ _ _ Hd). eexists. repeat split.
  - rewrite (getImageInfo_size_fails _ _ _ _ _ _ Hd Hs). eexists. repeat split.
Qed.

(** C1, as the code has it. The digest is queried first and the size
    second, inside one guarded block. A failure of the digest query
    ends the block: the size query is not made and both fields stay
    empty. A failure of the size query leaves the digest already
    retrieved untouched, with the size empty. Neither failure
    escapes [getImageInfo]. *)
Theorem getImageInfo_queries_in_sequence {L} (image : jsval) (st : state L) :
  (forall w1 e,
      docker (digest_args image) (world st) = (w1, inl e) ->
      fst (fst (getImageInfo image st)) = inr (mkInfo EmptyString EmptyString)
      /\ docker_calls (snd (getImageInfo image st)) = [digest_args image])
  /\ (forall w1 o w2 e,
         docker (digest_args image) (world st) = (w1, inr o) ->
         docker (size_args image) w1 = (w2, inl e) ->
         fst (fst (getImageInfo image st)) = inr (mkInfo (String_trim o) EmptyString)
         /\ docker_calls (snd (getImageInfo image st))
            = [digest_args image; size_args image]).
Proof.
  split.
  - intros w1 e Hd. rewrite (getImageInfo_digest_fails _ _ _ _ Hd). split; reflexivity.
  - intros w1 o w2 e Hd Hs.
    rewrite (getImageInfo_size_fails _ _ _ _ _ _ Hd Hs). split; reflexivity.
Qed.

End Inspect.

(** An engine that does everything asked of it except answer the
    digest query of the inspect step (its first invocation here). *)
Definition no_digest_host : Host :=
  scripted_host "[]" EmptyString (inr (JArray []))
    (fun n => match n with
              | O => inl (JsError "exit code 1")
              | _ => inr "1234"
              end).

(** An engine that answers the digest query and fails the size query. *)
Definition no_size_host : Host :=
  scripted_host "[]" EmptyString (inr (JArray []))
    (fun n => match n with
              | O => inr "sha256:abc"
              | _ => inl (JsError "exit code 1")
              end).

(** C1, as stated, fails: when the digest query fails, the size query
    is never made, although the engine would have answered it. *)
Lemma digest_failure_skips_size_query :
  ~ (forall (H : Host) (image : jsval) (st : state unit) (w1 : World) (e : exn),
        docker (digest_args image) (world st) = (w1, inl e) ->
        In (size_args image) (docker_calls (snd (getImageInfo image st)))).
Proof.
  intros C.
  specialize (C no_digest_host (JString "b:1")
                (@mkState no_digest_host unit tt 0%nat) 1%nat
                (JsError "exit code 1") eq_refl).
  vm_compute in C. destruct C as [C | []]. discriminate C.
Qed.

Lemma getImageInfo_queries_in_sequence_witness :
  (fst (fst (@getImageInfo no_digest_host unit (JString "b:1") (@mkState no_digest_host unit tt 0%nat)))
   = inr (mkInfo EmptyString EmptyString)
   /\ docker_calls (snd (@getImageInfo no_digest_host unit (JString "b:1") (@mkState no_digest_host unit tt 0%nat)))
      = [digest_args (JString "b:1")])
  /\ (fst (fst (@getImageInfo no_size_host unit (JString "b:1") (@mkState no_size_host unit tt 0%nat)))
      = inr (mkInfo "sha256:abc" EmptyString)
      /\ docker_calls (snd (@getImageInfo no_size_host unit (JString "b:1") (@mkState no_size_host unit tt 0%nat)))
         = [digest_args (JString "b:1"); size_args (JString "b:1")]).
Proof.
  split.
  - apply (proj1 (@getImageInfo_queries_in_sequence no_digest_host unit
                    (JString "b:1") (@mkState no_digest_host unit tt 0%nat))
             1%nat (JsError "exit code 1")).
    reflexivity.
  - apply (proj2 (@getImageInfo_queries_in_sequence no_size_host unit
                    (JString "b:1") (@mkState no_size_host unit tt 0%nat))
             1%nat "sha256:abc" 2%nat (JsError "exit code 1")); reflexivity.
Defined.

(** ** The pipeline of one descriptor *)

Section Pipeline.

Context {H : Host}.

(** [image] is the descriptor with source [s], destination [d] and
    architecture [a]. *)
Definition describes (image : jsval) (s d a : string) : Prop :=
  get_prop image "source" = inr (JString s)
  /\ get_prop image "destination" = inr (JString d)
  /\ get_prop image "architecture" = inr (JString a)
  /\ s <> EmptyString /\ d <> EmptyString /\ a <> EmptyString.

Lemma destructure_prop_get (v : jsval) (k : string) (x : jsval) :
  get_prop v k = inr x -> destructure_prop v k = inr x.
Proof. destruct v; simpl; congruence. Qed.

Lemma nonempty_string_inv (v : jsval) :
  nonempty_string v = true -> exists s, v = JString s /\ s <> EmptyString.
Proof.
  destruct v; simpl; try discriminate.
  intros E. eexists; split; [reflexivity | now apply str_truthy_true].
Qed.

Lemma is_descriptor_describes (image : jsval) :
  is_descriptor image = true ->
  describes image
    (match field "source" image with JString s => s | _ => EmptyString end)
    (match field "destination" image with JString s => s | _ => EmptyString end)
    (match field "architecture" image with JString s => s | _ => EmptyString end).
Proof.
  destruct image; simpl; try discriminate.
  intros E. apply andb_prop in E. destruct E as [E Ea].
  apply andb_prop in E. destruct E as [Es Ed].
  apply nonempty_string_inv in Es, Ed, Ea.
  destruct Es as (s & Es & Ns), Ed as (d & Ed & Nd), Ea as (a & Ea & Na).
  unfold describes, field in *. cbn [get_prop] in *.
  rewrite Es, Ed, Ea. repeat split; assumption.
Qed.

Lemma describes_field (image : jsval) (s d a : string) :
  describes image s d a ->
  field "source" image = JString s
  /\ field "destination" image = JString d
  /\ field "architecture" image = JString a.
Proof.
  intros (Hs & Hd & Ha & _). unfold field. rewrite Hs, Hd, Ha. repeat split.
Qed.

(** The architecture of a descriptor is always passed to the pull. *)
Lemma pull_args_platform (src arch : jsval) :
  truthy arch = true ->
  pull_args src arch = [JString "pull"; JString "--platform"; arch; src].
Proof. intros E. unfold pull_args. rewrite E. reflexivity. Qed.

(** The transfer (pull, tag, push) started in world [w] fails: the
    world it ends in, the invocations made, and the error. *)
Inductive transfer_fails (src dst arch : jsval) (w : World)
  : World -> list (list jsval) -> exn -> Prop :=
| pull_fails w1 e :
    docker (pull_args src arch) w = (w1, inl e) ->
    transfer_fails src dst arch w w1 [pull_args src arch] e
| tag_fails w1 o1 w2 e :
    docker (pull_args src arch) w = (w1, inr o1) ->
    docker (tag_args src dst) w1 = (w2, inl e) ->
    transfer_fails src dst arch w w2 [pull_args src arch; tag_args src dst] e
| push_fails w1 o1 w2 o2 w3 e :
    docker (pull_args src arch) w = (w1, inr o1) ->
    docker (tag_args src dst) w1 = (w2, inr o2) ->
    docker (push_args dst) w2 = (w3, inl e) ->
    transfer_fails src dst arch w w3
      [pull_args src arch; tag_args src dst; push_args dst] e.

(** The transfer started in world [w] succeeds and ends in [w3]. *)
Definition transfer_succeeds (src dst arch : jsval) (w w3 : World) : Prop :=
  exists w1 o1 w2 o2 o3,
    docker (pull_args src arch) w = (w1, inr o1)
    /\ docker (tag_args src dst) w1 = (w2, inr o2)
    /\ docker (push_args dst) w2 = (w3, inr o3).

Lemma transfer_total (src dst arch : jsval) (w : World) :
  (exists w' calls e, transfer_fails src dst arch w w' calls e)
  \/ (exists w3, transfer_succeeds src dst arch w w3).
Proof.
  destruct (docker (pull_args src arch) w) as [w1 [e | o1]] eqn:Hp.
  { left. do 3 eexists. eapply pull_fails; eauto. }
  destruct (docker (tag_args src dst) w1) as [w2 [e | o2]] eqn:Ht.
  { left. do 3 eexists. eapply tag_fails; eauto. }
  destruct (docker (push_args dst) w2) as [w3 [e | o3]] eqn:Hu.
  { left. do 3 eexists. eapply push_fails; eauto. }
  right. exists w3, w1, o1, w2, o2, o3. auto.
Qed.

Ltac enter_pipeline Hs Hd Ha Na :=
  unfold mirror_image;
  unfold bind at 1; unfold lift at 1; rewrite (destructure_prop_get _ _ _ Hs);
  unfold bind at 1; unfold lift at 1; rewrite (destructure_prop_get _ _ _ Hd);
  unfold bind at 1; unfold lift at 1; rewrite (destructure_prop_get _ _ _ Ha);
  unfold try_catch, bind, lift, info, error, emit, docker_exec, results_push,
    update, ret;
  cbn [ToString truthy world locals]; rewrite Na.

Lemma mirror_image_failed (len i : Z) (image : jsval) (s d a : string)
    (st : state run_locals) (w' : World) (attempted : list (list jsval)) (e : exn) :
  describes image s d a ->
  transfer_fails (JString s) (JString d) (JString a) (world st) w' attempted e ->
  exists tr,
    mirror_image len i image st
    = (inr tt,
       mkState (mkLocals (results (locals st)
                          ++ [failed_outcome (JString s) (JString d) e])%list
                         (successCount (locals st))) w',
       tr)
    /\ docker_calls tr = attempted
    /\ outputs tr = [] /\ failures tr = [] /\ warnings tr = [].
Proof.
  intros (Hs & Hd & Ha & Ns & Nd & Na) Hf.
  apply str_truthy_true in Na.
  enter_pipeline Hs Hd Ha Na.
  destruct Hf as [w1 e Hp | w1 o1 w2 e Hp Ht | w1 o1 w2 o2 w3 e Hp Ht Hu].
  - rewrite Hp. cbn [world locals].
    eexists. split; [reflexivity | repeat split].
  - rewrite Hp. cbn [world locals]. rewrite Ht. cbn [world locals].
    eexists. split; [reflexivity | repeat split].
  - rewrite Hp. cbn [world locals]. rewrite Ht. cbn [world locals].
    rewrite Hu. cbn [world locals].
    eexists. split; [reflexivity | repeat split].
Qed.

Lemma mirror_image_succeeded (len i : Z) (image : jsval) (s d a : string)
    (st : state run_locals) (w3 w4 : World) (info : imageInfo)
    (calls : list (list jsval)) (err : option exn) :
  describes image s d a ->
  transfer_succeeds (JString s) (JString d) (JString a) (world st) w3 ->
  inspection (JString d) w3 w4 info calls err ->
  exists tr,
    mirror_image len i image st
    = (inr tt,
       mkState (mkLocals (results (locals st)
                          ++ [success_outcome (JString s) (JString d) info])%list
                         (successCount (locals st) + 1)) w4,
       tr)
    /\ docker_calls tr
       = ([pull_args (JString s) (JString a); tag_args (JString s) (JString d);
           push_args (JString d)] ++ calls)%list
    /\ warnings tr = match err with Some e => [inspect_warning e] | None => [] end
    /\ outputs tr = [] /\ failures tr = [] /\ error_logs tr = [].
Proof.
  intros (Hs & Hd & Ha & Ns & Nd & Na) (w1 & o1 & w2 & o2 & o3 & Hp & Ht & Hu) Hi.
  apply str_truthy_true in Na.
  enter_pipeline Hs Hd Ha Na.
  rewrite Hp. cbn [world locals]. rewrite Ht. cbn [world locals].
  rewrite Hu. cbn [world locals].
  destruct (getImageInfo_inspection (JString d)
              (mkState (locals st) w3) w4 info calls err Hi)
    as (tri & Ei & Ci & Wi & Oi & Fi & Li).
  rewrite Ei. cbn [world locals results successCount].
  eexists. split; [reflexivity |].
  repeat rewrite ?docker_calls_app, ?warnings_app, ?outputs_app, ?failures_app,
    ?error_logs_app.
  rewrite Ci, Wi, Oi, Fi, Li. cbn. rewrite !app_nil_r. repeat split.
Qed.

End Pipeline.

(** ** What one iteration of the loop does *)

Section Iteration.

Context {H : Host}.

Lemma destructure_prop_field (v : jsval) (k : string) :
  (exists e, destructure_prop v k = inl e) \/ destructure_prop v k = inr (field k v).
Proof. destruct v; simpl; unfold field; simpl; eauto. Qed.

Lemma inspection_no_pull (image : jsval) (w w' : World) (i : imageInfo)
    (calls : list (list jsval)) (err : option exn) :
  inspection image w w' i calls err -> filter is_pull calls = [].
Proof. intros []; reflexivity. Qed.

Lemma transfer_fails_calls (src dst arch : jsval) (w w' : World)
    (calls : list (list jsval)) (e : exn) :
  transfer_fails src dst arch w w' calls e ->
  exists k, (k < 3)%nat
            /\ calls = firstn (S k) [pull_args src arch; tag_args src dst; push_args dst].
Proof.
  intros [w1 e' Hp | w1 o1 w2 e' Hp Ht | w1 o1 w2 o2 w3 e' Hp Ht Hu].
  - exists 0%nat. split; [lia | reflexivity].
  - exists 1%nat. split; [lia | reflexivity].
  - exists 2%nat. split; [lia | reflexivity].
Qed.

(** Whatever the element is, the engine invocations of one iteration
    are none at all, or a pull of the element's source constrained to
    its architecture followed by invocations that are not pulls. *)
Lemma mirror_image_calls (len i : Z) (image : jsval) (st : state run_locals) :
  docker_calls (snd (mirror_image len i image st)) = []
  \/ exists rest,
      docker_calls (snd (mirror_image len i image st))
      = pull_args (field "source" image) (field "architecture" image) :: rest
      /\ filter is_pull rest = [].
Proof.
  unfold mirror_image.
  unfold bind at 1. unfold lift at 1.
  destruct (destructure_prop_field image "source") as [[e E] | E]; rewrite E;
    [left; reflexivity |].
  unfold bind at 1. unfold lift at 1.
  destruct (destructure_prop_field image "destination") as [[e E1] | E1]; rewrite E1;
    [left; reflexivity |].
  unfold bind at 1. unfold lift at 1.
  destruct (destructure_prop_field image "architecture") as [[e E2] | E2]; rewrite E2;
    [left; reflexivity |].
  unfold try_catch, bind, lift, info, error, emit, docker_exec, results_push,
    update, ret.
  cbn [world locals].
  set (src := field "source" image). set (dst := field "destination" image).
  set (arch := field "architecture" image).
  destruct (ToString src) as [es | ss]; destruct (ToString dst) as [ed | sd];
    destruct (truthy arch); try destruct (ToString arch) as [ea | sa];
    cbn [world locals]; try (left; reflexivity).
  all: destruct (docker (pull_args src arch) (world st)) as [w1 [e | o1]];
    cbn [world locals];
    [right; eexists; split; reflexivity |].
  all: destruct (docker (tag_args src dst) w1) as [w2 [e | o2]];
    cbn [world locals];
    [right; eexists; split; reflexivity |].
  all: destruct (docker (push_args dst) w2) as [w3 [e | o3]];
    cbn [world locals];
    [right; eexists; split; reflexivity |].
  all: destruct (inspection_total dst w3) as (w4 & inf & calls & err & Hi);
    destruct (getImageInfo_inspection dst (mkState (locals st) w3) w4 inf calls err Hi)
      as (tri & Ei & Ci & _);
    rewrite Ei; cbn [world locals snd];
    right; exists ([tag_args src dst; push_args dst] ++ calls)%list;
    repeat rewrite ?docker_calls_app; cbn [docker_calls flat_map app];
    fold (docker_calls tri); rewrite Ci; rewrite ?app_nil_r.
  all: split; [reflexivity | cbn; apply (inspection_no_pull _ _ _ _ _ _ Hi)].
Qed.

(** One iteration on a descriptor: it returns normally, appends one
    outcome for that descriptor and counts it if it is a success. *)
Lemma mirror_image_outcome (len i : Z) (image : jsval) (s d a : string)
    (st : state run_locals) :
  describes image s d a ->
  exists o w' tr rest,
    mirror_image len i image st
    = (inr tt,
       mkState (mkLocals (results (locals st) ++ [o])%list
                         (successCount (locals st) + (if is_success o then 1 else 0)))
               w',
       tr)
    /\ field "source" o = JString s
    /\ field "destination" o = JString d
    /\ is_failed o = negb (is_success o)
    /\ docker_calls tr = pull_args (JString s) (JString a) :: rest
    /\ filter is_pull rest = []
    /\ outputs tr = [] /\ failures tr = [].
Proof.
  intros D.
  destruct (transfer_total (JString s) (JString d) (JString a) (world st))
    as [(w' & calls & e & Hf) | (w3 & Hok)].
  - destruct (mirror_image_failed len i image s d a st w' calls e D Hf)
      as (tr & E & C & O & F & _).
    exists (failed_outcome (JString s) (JString d) e), w', tr, (tl calls).
    rewrite E. cbn [is_success failed_outcome field get_prop own_property String.eqb
                      Ascii.eqb Bool.eqb].
    rewrite Z.add_0_r. repeat split; auto.
    + rewrite C. destruct Hf; reflexivity.
    + destruct Hf; reflexivity.
  - destruct (inspection_total (JString d) w3) as (w4 & inf & calls & err & Hi).
    destruct (mirror_image_succeeded len i image s d a st w3 w4 inf calls err D Hok Hi)
      as (tr & E & C & _ & O & F & _).
    exists (success_outcome (JString s) (JString d) inf), w4, tr,
      ([tag_args (JString s) (JString d); push_args (JString d)] ++ calls)%list.
    rewrite E. repeat split; auto.
    cbn. apply (inspection_no_pull _ _ _ _ _ _ Hi).
Qed.

(** C4. For a descriptor whose pull, tag or push fails, the iteration
    still returns normally; it appends one outcome with status
    [failed], the message of the triggering error and empty digest and
    size; the success counter is unchanged; and the engine invocations
    made are the transfer steps up to and including the failing one,
    nothing after it. *)
Theorem transfer_failure_aborts_pipeline (len i : Z) (image : jsval) (s d a : string)
    (st : state run_locals) (w' : World) (attempted : list (list jsval)) (e : exn) :
  describes image s d a ->
  transfer_fails (JString s) (JString d) (JString a) (world st) w' attempted e ->
  exists o tr k,
    mirror_image len i image st
    = (inr tt,
       mkState (mkLocals (results (locals st) ++ [o])%list (successCount (locals st))) w',
       tr)
    /\ field "source" o = JString s /\ field "destination" o = JString d
    /\ field "status" o = JString "failed"
    /\ field "error" o = JString (message e)
    /\ field "digest" o = JString EmptyString
    /\ field "size" o = JString EmptyString
    /\ docker_calls tr = attempted
    /\ (k < 3)%nat
    /\ attempted
       = firstn (S k) [pull_args (JString s) (JString a);
                       tag_args (JString s) (JString d); push_args (JString d)].
Proof.
  intros D Hf.
  destruct (mirror_image_failed len i image s d a st w' attempted e D Hf)
    as (tr & E & C & _).
  destruct (transfer_fails_calls _ _ _ _ _ _ _ Hf) as (k & Hk & Ek).
  exists (failed_outcome (JString s) (JString d) e), tr, k.
  rewrite E, C. repeat split; auto.
Qed.

(** C5, as the code has it. For a descriptor whose pull, tag and push
    all succeed, a failure of the inspect step is not fatal: the
    iteration returns normally, the outcome has status [success] and
    is counted, one warning is logged, no error is logged and no
    failure is signalled.
    The size is empty. The digest is empty when the digest query is
    the one that failed; when the size query failed, the digest is the
    trimmed answer of the digest query. *)
Theorem inspect_failure_is_not_fatal (len i : Z) (image : jsval) (s d a : string)
    (st : state run_locals) (w3 w4 : World) (inf : imageInfo)
    (calls : list (list jsval)) (e : exn) :
  describes image s d a ->
  transfer_succeeds (JString s) (JString d) (JString a) (world st) w3 ->
  inspection (JString d) w3 w4 inf calls (Some e) ->
  exists o tr,
    mirror_image len i image st
    = (inr tt,
       mkState (mkLocals (results (locals st) ++ [o])%list
                         (successCount (locals st) + 1)) w4,
       tr)
    /\ field "source" o = JString s /\ field "destination" o = JString d
    /\ field "status" o = JString "success"
    /\ field "size" o = JString EmptyString
    /\ ((exists w, docker (digest_args (JString d)) w3 = (w, inl e))
        /\ field "digest" o = JString EmptyString
        \/ exists w o1, docker (digest_args (JString d)) w3 = (w, inr o1)
                        /\ field "digest" o = JString (String_trim o1))
    /\ warnings tr = [inspect_warning e]
    /\ error_logs tr = []
    /\ failures tr = [].
Proof.
  intros D Hok Hi.
  destruct (mirror_image_succeeded len i image s d a st w3 w4 inf calls (Some e) D Hok Hi)
    as (tr & E & _ & W & _ & F & Lg).
  exists (success_outcome (JString s) (JString d) inf), tr.
  rewrite E. repeat split; auto.
  - inversion Hi; subst; reflexivity.
  - inversion Hi; subst.
    + left. split; [eauto | reflexivity].
    + right. do 2 eexists. split; [eassumption | reflexivity].
Qed.

(** C7. The architecture is truthy for every element that passed the
    check of line 39. Then every pull the iteration makes carries
    [--platform] with the element's architecture, and for a descriptor
    the pull is the first thing asked of the engine. *)
Theorem pull_always_carries_platform (len i : Z) (image : jsval)
    (st : state run_locals) :
  truthy (field "architecture" image) = true ->
  (forall args,
      In args (docker_calls (snd (mirror_image len i image st))) ->
      is_pull args = true ->
      args = [JString "pull"; JString "--platform";
              field "architecture" image; field "source" image])
  /\ (is_descriptor image = true ->
      exists rest,
        docker_calls (snd (mirror_image len i image st))
        = [JString "pull"; JString "--platform";
           field "architecture" image; field "source" image] :: rest).
Proof.
  intros T. split.
  - intros args Hin Hp.
    destruct (mirror_image_calls len i image st) as [E | (rest & E & N)];
      rewrite E in Hin; [destruct Hin |].
    destruct Hin as [<- | Hin].
    + apply pull_args_platform, T.
    + assert (In args (filter is_pull rest)) as X by (apply filter_In; auto).
      rewrite N in X. destruct X.
  - intros D. apply is_descriptor_describes in D.
    destruct (describes_field _ _ _ _ D) as (Fs & Fd & Fa).
    destruct (mirror_image_outcome len i image _ _ _ st D)
      as (o & w' & tr & rest & E & _ & _ & _ & C & _).
    exists rest. rewrite E. cbn [snd]. rewrite C, Fs, Fa.
    apply f_equal2; [| reflexivity]. apply pull_args_platform.
    rewrite <- Fa. exact T.
Qed.

End Iteration.

(** ** Validation and the batch loop *)

Section Batch.

Context {H : Host}.

(** Exactly one channel is supplied and its content parses to [v]. *)
Definition input_parses_to (v : jsval) : Prop :=
  (getInput "images" <> EmptyString
   /\ getInput "images-file" = EmptyString
   /\ JSON_parse (getInput "images") = inr v)
  \/ (getInput "images" = EmptyString
      /\ getInput "images-file" <> EmptyString
      /\ exists content,
          readFileSync (getInput "images-file") = inr content
          /\ JSON_parse content = inr v).

(** The element passes the test of line 39. *)
Definition passes_check (v : jsval) : bool :=
  match v with
  | JUndefined | JNull => false
  | _ => truthy (field "source" v) && truthy (field "destination" v)
         && truthy (field "architecture" v)
  end.

Definition count_success (os : list jsval) : Z :=
  Z.of_nat (List.length (filter is_success os)).

Definition count_failed (os : list jsval) : Z :=
  Z.of_nat (List.length (filter is_failed os)).

Definition descriptor_pull (image : jsval) : list jsval :=
  [JString "pull"; JString "--platform"; field "architecture" image;
   field "source" image].

Lemma read_images_parsed {L} (v : jsval) (st : state L) :
  input_parses_to v ->
  exists tr0,
    read_images st = (inr (as_array v), st, tr0)
    /\ docker_calls tr0 = [] /\ outputs tr0 = [] /\ failures tr0 = []
    /\ warnings tr0 = [].
Proof.
  intros [(Hi & Hf & Hp) | (Hi & Hf & content & Hr & Hp)].
  - apply str_truthy_true in Hi.
    unfold read_images. rewrite Hi, Hf. cbn [str_truthy negb andb].
    unfold try_catch, bind, lift, ret. rewrite Hp.
    eexists. repeat split.
  - apply str_truthy_true in Hf.
    unfold read_images. rewrite Hi, Hf. cbn [str_truthy negb andb].
    unfold try_catch, bind, lift, ret, info, emit. rewrite Hr, Hp.
    eexists. repeat split.
Qed.

Lemma passes_check_get (v : jsval) (k : string) :
  passes_check v = true -> get_prop v k = inr (field k v).
Proof. destruct v; simpl; try discriminate; reflexivity. Qed.

Lemma check_image_passes {L} (image : jsval) (st : state L) :
  passes_check image = true -> check_image image st = (inr tt, st, []).
Proof.
  intros P. unfold check_image, bind, lift.
  rewrite !(passes_check_get _ _ P).
  assert (T : truthy (field "source" image) && truthy (field "destination" image)
              && truthy (field "architecture" image) = true)
    by (destruct image; try discriminate; exact P).
  apply andb_prop in T. destruct T as [T Ta]. apply andb_prop in T.
  destruct T as [Ts Td]. rewrite Ts, Td, Ta. reflexivity.
Qed.

Lemma validate_passes {L} (images : list jsval) (st : state L) :
  forallb passes_check images = true -> validate images st = (inr tt, st, []).
Proof.
  induction images as [| image rest IH]; intros P; [reflexivity |].
  cbn [forallb] in P. apply andb_prop in P. destruct P as [P Pr].
  cbn [validate]. unfold bind. rewrite (check_image_passes _ _ P), (IH Pr).
  reflexivity.
Qed.

Lemma is_descriptor_passes (v : jsval) : is_descriptor v = true -> passes_check v = true.
Proof.
  destruct v; simpl; try discriminate.
  intros E. apply andb_prop in E. destruct E as [E Ea].
  apply andb_prop in E. destruct E as [Es Ed].
  apply nonempty_string_inv in Es, Ed, Ea.
  destruct Es as (s & -> & Ns), Ed as (d & -> & Nd), Ea as (a & -> & Na).
  apply str_truthy_true in Ns, Nd, Na. cbn [truthy]. now rewrite Ns, Nd, Na.
Qed.

Lemma forallb_descriptor_passes (images : list jsval) :
  forallb is_descriptor images = true -> forallb passes_check images = true.
Proof.
  rewrite !forallb_forall. intros A x Hx. apply is_descriptor_passes, A, Hx.
Qed.

Lemma is_pull_pull_args (src arch : jsval) : is_pull (pull_args src arch) = true.
Proof. unfold pull_args. destruct (truthy arch); reflexivity. Qed.

Lemma count_success_cons (o : jsval) (os : list jsval) :
  count_success (o :: os) = ((if is_success o then 1 else 0) + count_success os)%Z.
Proof.
  unfold count_success. cbn [filter]. destruct (is_success o); cbn [List.length]; lia.
Qed.

Lemma count_success_bounds (os : list jsval) :
  (0 <= count_success os <= Z.of_nat (List.length os))%Z.
Proof.
  unfold count_success. pose proof (filter_length_le is_success os). lia.
Qed.

Lemma count_failed_complement (os : list jsval) :
  Forall (fun o => is_failed o = negb (is_success o)) os ->
  count_failed os = (Z.of_nat (List.length os) - count_success os)%Z.
Proof.
  unfold count_failed, count_success.
  induction 1 as [| o os Ho _ IH]; [reflexivity |].
  cbn [filter List.length]. rewrite Ho.
  destruct (is_success o); cbn [negb List.length]; lia.
Qed.

(** The loop over descriptors: it returns normally with one outcome
    appended per descriptor, in order, every descriptor pulled. *)
Lemma mirror_loop_descriptors (len : Z) (images : list jsval) :
  forall (i : Z) (st : state run_locals),
    forallb is_descriptor images = true ->
    exists os w' tr,
      mirror_loop len i images st
      = (inr tt,
         mkState (mkLocals (results (locals st) ++ os)%list
                           (successCount (locals st) + count_success os)) w',
         tr)
      /\ map (field "source") os = map (field "source") images
      /\ map (field "destination") os = map (field "destination") images
      /\ Forall (fun o => is_failed o = negb (is_success o)) os
      /\ filter is_pull (docker_calls tr) = map descriptor_pull images
      /\ outputs tr = [] /\ failures tr = [].
Proof.
  induction images as [| image rest IH]; intros i st D.
  - exists [], (world st), []. cbn [mirror_loop]. unfold ret, count_success.
    cbn. rewrite app_nil_r, Z.add_0_r. destruct st as [[rs sc] w].
    repeat split; auto.
  - cbn [forallb] in D. apply andb_prop in D. destruct D as [D Dr].
    pose proof (is_descriptor_describes _ D) as Dsc.
    destruct (describes_field _ _ _ _ Dsc) as (Fs & Fd & Fa).
    destruct (mirror_image_outcome len i image _ _ _ st Dsc)
      as (o & w1 & tr1 & more & E1 & Os & Od & Oc & C1 & N1 & O1 & F1).
    destruct (IH (i + 1)%Z
                (mkState (mkLocals (results (locals st) ++ [o])%list
                                   (successCount (locals st)
                                    + (if is_success o then 1 else 0))) w1) Dr)
      as (os & w' & tr2 & E2 & Ms & Md & Fc & C2 & O2 & F2).
    exists (o :: os), w', (tr1 ++ tr2)%list.
    cbn [mirror_loop]. unfold bind. rewrite E1, E2. cbn [locals results successCount].
    rewrite <- app_assoc. cbn [app]. rewrite count_success_cons, Z.add_assoc.
    split; [reflexivity |].
    cbn [map]. rewrite Os, Od, Ms, Md, <- Fs, <- Fd.
    repeat split; auto.
    + rewrite docker_calls_app, filter_app, C1, C2. cbn [filter].
      rewrite is_pull_pull_args, N1. cbn [app]. f_equal.
      rewrite <- Fs, <- Fa. apply pull_args_platform.
      rewrite Fa. cbn [truthy]. apply str_truthy_true. apply Dsc.
    + rewrite outputs_app, O1, O2. reflexivity.
    + rewrite failures_app, F1, F2. reflexivity.
Qed.

Definition shortfall_message (failed total : Z) : string :=
  "Failed to sync " ++ dec failed ++ " out of " ++ dec total ++ " image(s)".

Lemma report_trace (len : Z) (st : state run_locals) :
  exists tr,
    report len st = (inr tt, st, tr)
    /\ docker_calls tr = []
    /\ outputs tr = [("results", JSON_stringify_array (results (locals st)));
                     ("success-count", dec (successCount (locals st)));
                     ("total-count", dec len)]
    /\ failures tr = if (successCount (locals st) =? len)%Z then []
                     else [shortfall_message (len - successCount (locals st)) len].
Proof.
  unfold report, bind, get_locals, setOutput, setFailed, info, error, emit.
  destruct (successCount (locals st) =? len)%Z; eexists; repeat split.
Qed.

(** The whole run on a list of descriptors. *)
Lemma run_descriptors (w : World) (v : jsval) :
  input_parses_to v ->
  forallb is_descriptor (as_array v) = true ->
  let n := Z.of_nat (List.length (as_array v)) in
  exists os w' tr,
    run_action w = (inr tt, mkState (mkLocals os (count_success os)) w', tr)
    /\ map (field "source") os = map (field "source") (as_array v)
    /\ map (field "destination") os = map (field "destination") (as_array v)
    /\ Forall (fun o => is_failed o = negb (is_success o)) os
    /\ filter is_pull (docker_calls tr) = map descriptor_pull (as_array v)
    /\ outputs tr = [("results", JSON_stringify_array os);
                     ("success-count", dec (count_success os));
                     ("total-count", dec n)]
    /\ failures tr = if (count_success os =? n)%Z then []
                     else [shortfall_message (n - count_success os) n].
Proof.
  intros P D n.
  destruct (read_images_parsed v (initial w) P) as (tr0 & E0 & C0 & O0 & F0 & _).
  pose proof (validate_passes _ (initial w) (forallb_descriptor_passes _ D)) as Ev.
  destruct (mirror_loop_descriptors n (as_array v) 0%Z (initial w) D)
    as (os & w' & tr1 & E1 & Ms & Md & Fc & C1 & O1 & F1).
  cbn [initial locals results successCount app] in E1. rewrite Z.add_0_l in E1.
  destruct (report_trace n (mkState (mkLocals os (count_success os)) w'))
    as (tr2 & E2 & C2 & O2 & F2).
  cbn [locals results successCount] in O2, F2.
  exists os, w', (tr0 ++ [Info ("Starting mirror process for " ++ dec n ++ " image(s)")]
                  ++ tr1 ++ tr2)%list.
  split.
  - unfold run_action, run, try_catch. unfold bind at 1. fold (initial w).
    rewrite E0. unfold bind at 1. rewrite Ev.
    unfold bind, info, emit, update, initial in *. cbn [locals world]. fold n.
    rewrite E1, E2. reflexivity.
  - repeat split; auto.
    + rewrite !docker_calls_app, C0, C2, filter_app. cbn. rewrite app_nil_r. exact C1.
    + rewrite !outputs_app, O0, O1, O2. reflexivity.
    + rewrite !failures_app, F0, F1, F2. reflexivity.
Qed.

End Batch.

(** ** The run as a whole *)

Section Run.

Context {H : Host}.

Lemma validate_prefix {L} (pre rest : list jsval) (st : state L) :
  forallb passes_check pre = true ->
  validate (pre ++ rest) st = validate rest st.
Proof.
  induction pre as [| image pre IH]; intros P; [reflexivity |].
  cbn [forallb] in P. apply andb_prop in P. destruct P as [P Pr].
  cbn [app validate]. unfold bind at 1. rewrite (check_image_passes _ _ P), (IH Pr).
  destruct (validate rest st) as [[r st'] tr]. reflexivity.
Qed.

Lemma check_image_missing {L} (image : jsval) (st : state L) :
  image <> JNull -> image <> JUndefined -> passes_check image = false ->
  check_image image st = (inl (JsError msg_missing_field), st, []).
Proof.
  intros N U P. unfold check_image, bind, lift, throw.
  assert (G : forall k, get_prop image k = inr (field k image))
    by (intros k; destruct image; try reflexivity; congruence).
  rewrite !G.
  assert (T : truthy (field "source" image) && truthy (field "destination" image)
              && truthy (field "architecture" image) = false)
    by (destruct image; try congruence; exact P).
  destruct (truthy (field "source" image)); [| reflexivity].
  destruct (truthy (field "destination" image)); [| reflexivity].
  destruct (truthy (field "architecture" image)); [discriminate T | reflexivity].
Qed.

(** A run whose validation throws [e] at the first element that does
    not pass: nothing but the failure happens. *)
Lemma run_validation_throws (w : World) (v : jsval) (pre rest : list jsval)
    (bad : jsval) (e : exn) :
  input_parses_to v ->
  as_array v = (pre ++ bad :: rest)%list ->
  forallb passes_check pre = true ->
  check_image bad (initial w) = (inl e, initial w, []) ->
  fst (run_action w) = (inr tt, initial w)
  /\ docker_calls (snd (run_action w)) = []
  /\ outputs (snd (run_action w)) = []
  /\ failures (snd (run_action w)) = ["Action failed with error: " ++ message e].
Proof.
  intros P A Pre Ec.
  destruct (read_images_parsed v (initial w) P) as (tr0 & E0 & C0 & O0 & F0 & _).
  assert (E : run_action w
              = (inr tt, initial w,
                 (tr0 ++ [SetFailed ("Action failed with error: " ++ message e)])%list)).
  { unfold run_action, run, try_catch. unfold bind at 1. fold (initial w).
    rewrite E0, A. unfold bind at 1. rewrite (validate_prefix _ _ _ Pre).
    cbn [validate]. unfold bind at 1. rewrite Ec.
    unfold setFailed, emit. rewrite !app_nil_r. reflexivity. }
  rewrite E. cbn [fst snd]. rewrite docker_calls_app, outputs_app, failures_app.
  rewrite C0, O0, F0. repeat split.
Qed.

(** An element that is not [null] and fails the test of line 39 stops
    the run with the message of the missing-field contract, before
    anything is asked of the engine. *)
Lemma missing_field_fails_fast (w : World) (v : jsval) (pre rest : list jsval)
    (bad : jsval) :
  input_parses_to v ->
  as_array v = (pre ++ bad :: rest)%list ->
  forallb passes_check pre = true ->
  bad <> JNull -> bad <> JUndefined -> passes_check bad = false ->
  fst (run_action w) = (inr tt, initial w)
  /\ docker_calls (snd (run_action w)) = []
  /\ outputs (snd (run_action w)) = []
  /\ failures (snd (run_action w)) = ["Action failed with error: " ++ msg_missing_field].
Proof.
  intros P A Pre N U B.
  apply (run_validation_throws w v pre rest bad (JsError msg_missing_field) P A Pre).
  apply check_image_missing; assumption.
Qed.

(** C8, at the element the check misses. When the first element that
    does not pass is [null], reading its [source] throws a TypeError:
    the run still fails before anything is asked of the engine, with
    no outcome and no output, but the message it fails with is the
    TypeError's, not the one of the missing-field contract. *)
Theorem null_element_fails_with_type_error (w : World) (v : jsval)
    (pre rest : list jsval) :
  input_parses_to v ->
  as_array v = (pre ++ JNull :: rest)%list ->
  forallb passes_check pre = true ->
  fst (run_action w) = (inr tt, initial w)
  /\ docker_calls (snd (run_action w)) = []
  /\ outputs (snd (run_action w)) = []
  /\ failures (snd (run_action w))
     = ["Action failed with error: Cannot read properties of null (reading 'source')"]
  /\ failures (snd (run_action w))
     <> ["Action failed with error: " ++ msg_missing_field].
Proof.
  intros P A Pre.
  destruct (run_validation_throws w v pre rest JNull (TypeError_read "null" "source")
              P A Pre eq_refl) as (E & C & O & F).
  rewrite F. repeat split; auto. discriminate.
Qed.

(** Where the isolation of failures holds. On a list of descriptors
    of the data model (objects whose source, destination and
    architecture are non-empty strings) the run leaves exactly one
    outcome per descriptor, in input order (same sources and
    destinations, position by position), each with status [success]
    or [failed]; and every descriptor is attempted, whatever happened
    to the ones before it: the pulls asked of the engine are those of
    the descriptors, one each, in order. *)
Theorem batch_one_outcome_per_descriptor (w : World) (v : jsval) :
  input_parses_to v ->
  forallb is_descriptor (as_array v) = true ->
  List.length (results (locals (snd (fst (run_action w)))))
  = List.length (as_array v)
  /\ map (field "source") (results (locals (snd (fst (run_action w)))))
     = map (field "source") (as_array v)
  /\ map (field "destination") (results (locals (snd (fst (run_action w)))))
     = map (field "destination") (as_array v)
  /\ Forall (fun o => is_failed o = negb (is_success o))
       (results (locals (snd (fst (run_action w)))))
  /\ filter is_pull (docker_calls (snd (run_action w)))
     = map descriptor_pull (as_array v).
Proof.
  intros P D.
  destruct (run_descriptors w v P D) as (os & w' & tr & E & Ms & Md & Fc & C & _).
  rewrite E. cbn [fst snd locals results].
  repeat split; auto.
  rewrite <- (length_map (field "source") os), Ms. apply length_map.
Qed.

(** C3. After the loop the success counter is the number of outcomes
    with status [success]; the [success-count] output is that number
    and the [total-count] output is the number of descriptors; and
    the counter lies between 0 and the number of descriptors. *)
Theorem counts_match_outcomes (w : World) (v : jsval) :
  input_parses_to v ->
  forallb is_descriptor (as_array v) = true ->
  successCount (locals (snd (fst (run_action w))))
  = count_success (results (locals (snd (fst (run_action w)))))
  /\ (exists serialized,
         outputs (snd (run_action w))
         = [("results", serialized);
            ("success-count",
             dec (count_success (results (locals (snd (fst (run_action w)))))));
            ("total-count", dec (Z.of_nat (List.length (as_array v))))])
  /\ (0 <= successCount (locals (snd (fst (run_action w))))
      <= Z.of_nat (List.length (as_array v)))%Z.
Proof.
  intros P D.
  destruct (run_descriptors w v P D) as (os & w' & tr & E & Ms & _ & _ & _ & O & _).
  rewrite E. cbn [fst snd locals results successCount].
  split; [reflexivity |]. split; [eexists; exact O |].
  assert (L : List.length os = List.length (as_array v))
    by (rewrite <- (length_map (field "source") os), Ms; apply length_map).
  rewrite <- L. apply count_success_bounds.
Qed.

(** Where the report is always made. On a list of descriptors of the
    data model the run sets the three outputs: the serialized outcome
    list, the success count and the total count. No failure is
    signalled exactly when the success count equals the total;
    otherwise the one failure signalled says how many of the total
    failed, that number being the number of outcomes with status
    [failed]. The outputs are the same in both cases. *)
Theorem report_after_validation (w : World) (v : jsval) :
  input_parses_to v ->
  forallb is_descriptor (as_array v) = true ->
  outputs (snd (run_action w))
  = [("results", JSON_stringify_array (results (locals (snd (fst (run_action w))))));
     ("success-count", dec (successCount (locals (snd (fst (run_action w))))));
     ("total-count", dec (Z.of_nat (List.length (as_array v))))]
  /\ (failures (snd (run_action w)) = []
      <-> successCount (locals (snd (fst (run_action w))))
          = Z.of_nat (List.length (as_array v)))
  /\ (successCount (locals (snd (fst (run_action w))))
      <> Z.of_nat (List.length (as_array v)) ->
      failures (snd (run_action w))
      = ["Failed to sync "
         ++ dec (count_failed (results (locals (snd (fst (run_action w))))))
         ++ " out of " ++ dec (Z.of_nat (List.length (as_array v))) ++ " image(s)"]).
Proof.
  intros P D.
  destruct (run_descriptors w v P D) as (os & w' & tr & E & Ms & _ & Fc & _ & O & F).
  rewrite E. cbn [fst snd locals results successCount].
  assert (L : List.length os = List.length (as_array v))
    by (rewrite <- (length_map (field "source") os), Ms; apply length_map).
  split; [exact O |]. rewrite F. split.
  - destruct (Z.eqb_spec (count_success os) (Z.of_nat (List.length (as_array v))));
      split; intros X; auto; [discriminate X | contradiction].
  - intros N.
    destruct (Z.eqb_spec (count_success os) (Z.of_nat (List.length (as_array v))));
      [contradiction |].
    rewrite (count_failed_complement os Fc), L. reflexivity.
Qed.

(** C10. An input that parses to the empty array is accepted: nothing
    is asked of the engine, the outputs are [results = "[]"],
    [success-count = "0"] and [total-count = "0"], no failure is
    signalled, and the success message is logged. *)
Theorem empty_list_is_vacuous_success (w : World) :
  input_parses_to (JArray []) ->
  fst (run_action w) = (inr tt, initial w)
  /\ docker_calls (snd (run_action w)) = []
  /\ outputs (snd (run_action w))
     = [("results", "[]"); ("success-count", "0"); ("total-count", "0")]
  /\ failures (snd (run_action w)) = []
  /\ In (Info "🎉 All 0 image(s) mirrored successfully!") (snd (run_action w)).
Proof.
  intros P.
  destruct (read_images_parsed (JArray []) (initial w) P) as (tr0 & E0 & C0 & O0 & F0 & _).
  assert (E : run_action w
              = (inr tt, initial w,
                 (tr0 ++ [Info "Starting mirror process for 0 image(s)";
                          SetOutput "results" "[]";
                          SetOutput "success-count" "0";
                          SetOutput "total-count" "0";
                          Info "🎉 All 0 image(s) mirrored successfully!"])%list)).
  { unfold run_action, run, try_catch. unfold bind at 1. fold (initial w).
    rewrite E0. reflexivity. }
  rewrite E. cbn [fst snd]. rewrite docker_calls_app, outputs_app, failures_app.
  rewrite C0, O0, F0. repeat split.
  apply in_or_app. right. cbn. auto 6.
Qed.

End Run.

(** ** The properties on concrete runs *)

Definition image_a : jsval :=
  JObject [("source", JString "a:1"); ("destination", JString "b:1");
           ("architecture", JString "linux/amd64")].

Definition image_x : jsval :=
  JObject [("source", JString "x:1"); ("destination", JString "y:1");
           ("architecture", JString "linux/arm64")].

Definition two_images : jsval := JArray [image_a; image_x].

Definition quoted (s : string) : string := dq ++ s ++ dq.

Definition descriptor_text (s d a : string) : string :=
  "{" ++ quoted "source" ++ ":" ++ quoted s ++ ","
  ++ quoted "destination" ++ ":" ++ quoted d ++ ","
  ++ quoted "architecture" ++ ":" ++ quoted a ++ "}".

Definition two_images_text : string :=
  "[" ++ descriptor_text "a:1" "b:1" "linux/amd64" ++ ","
  ++ descriptor_text "x:1" "y:1" "linux/arm64" ++ "]".

Definition exit_code_1 : exn :=
  JsError "The process '/usr/bin/docker' failed with exit code 1".

(** The first image goes through; the pull of the second fails. *)
Definition second_pull_fails_host : Host :=
  scripted_host two_images_text EmptyString (inr two_images)
    (fun n => match n with
              | 3%nat => inr "sha256:abc"
              | 4%nat => inr "1234"
              | 5%nat => inl exit_code_1
              | _ => inr EmptyString
              end).

(** The pull goes through; the tag fails. *)
Definition tag_fails_host : Host :=
  scripted_host two_images_text EmptyString (inr two_images)
    (fun n => match n with
              | 1%nat => inl exit_code_1
              | _ => inr EmptyString
              end).

(** Pull, tag, push and the digest query go through; the size query
    fails. *)
Definition size_query_fails_host : Host :=
  scripted_host two_images_text EmptyString (inr two_images)
    (fun n => match n with
              | 3%nat => inr "sha256:abc"
              | 4%nat => inl exit_code_1
              | _ => inr EmptyString
              end).

(** The input is [[null]]. *)
Definition null_element_host : Host :=
  scripted_host "[null]" EmptyString (inr (JArray [JNull])) (fun _ => inr EmptyString).

(** The input is [[]]. *)
Definition empty_list_host : Host :=
  scripted_host "[]" EmptyString (inr (JArray [])) (fun _ => inr EmptyString).

Lemma batch_one_outcome_per_descriptor_witness :
  List.length (results (locals (snd (fst (@run_action second_pull_fails_host 0%nat)))))
  = 2%nat.
Proof.
  refine (proj1 (@batch_one_outcome_per_descriptor second_pull_fails_host 0%nat
                   two_images _ _)).
  - left. repeat split; try reflexivity. discriminate.
  - reflexivity.
Defined.

Lemma counts_match_outcomes_witness :
  (0 <= successCount (locals (snd (fst (@run_action second_pull_fails_host 0%nat))))
   <= 2)%Z.
Proof.
  refine (proj2 (proj2 (@counts_match_outcomes second_pull_fails_host 0%nat
                          two_images _ _))).
  - left. repeat split; try reflexivity. discriminate.
  - reflexivity.
Defined.

Lemma report_after_validation_witness :
  failures (snd (@run_action second_pull_fails_host 0%nat))
  = ["Failed to sync 1 out of 2 image(s)"].
Proof.
  refine (proj2 (proj2 (@report_after_validation second_pull_fails_host 0%nat
                          two_images _ _)) _).
  - left. repeat split; try reflexivity. discriminate.
  - reflexivity.
  - vm_compute. discriminate.
Defined.

Lemma empty_list_is_vacuous_success_witness :
  outputs (snd (@run_action empty_list_host 0%nat))
  = [("results", "[]"); ("success-count", "0"); ("total-count", "0")].
Proof.
  refine (proj1 (proj2 (proj2 (@empty_list_is_vacuous_success empty_list_host 0%nat _)))).
  left. repeat split; try reflexivity. discriminate.
Defined.

Lemma null_element_fails_with_type_error_witness :
  failures (snd (@run_action null_element_host 0%nat))
  = ["Action failed with error: Cannot read properties of null (reading 'source')"].
Proof.
  refine (proj1 (proj2 (proj2 (proj2
            (@null_element_fails_with_type_error null_element_host 0%nat
               (JArray [JNull]) [] [] _ _ _))))).
  - left. repeat split; try reflexivity. discriminate.
  - reflexivity.
  - reflexivity.
Defined.

Lemma transfer_failure_aborts_pipeline_witness :
  exists o,
    results (locals (snd (fst (@mirror_image tag_fails_host 2 0 image_a
                                 (@initial tag_fails_host 0%nat))))) = [o]
    /\ field "status" o = JString "failed"
    /\ field "error" o = JString (message exit_code_1)
    /\ docker_calls (snd (@mirror_image tag_fails_host 2 0 image_a
                            (@initial tag_fails_host 0%nat)))
       = [[JString "pull"; JString "--platform"; JString "linux/amd64"; JString "a:1"];
          [JString "tag"; JString "a:1"; JString "b:1"]].
Proof.
  destruct (@transfer_failure_aborts_pipeline tag_fails_host 2 0 image_a
              "a:1" "b:1" "linux/amd64" (@initial tag_fails_host 0%nat) 2%nat
              [pull_args (JString "a:1") (JString "linux/amd64");
               tag_args (JString "a:1") (JString "b:1")]
              exit_code_1)
    as (o & tr & k & E & _ & _ & St & Er & _ & _ & Ca & _).
  - unfold describes. repeat split; try reflexivity; discriminate.
  - apply (@tag_fails tag_fails_host _ _ _ _ 1%nat EmptyString 2%nat exit_code_1);
      reflexivity.
  - exists o. rewrite E. cbn [fst snd locals results app].
    repeat split; assumption.
Defined.

Lemma inspect_failure_is_not_fatal_witness :
  exists o,
    results (locals (snd (fst (@mirror_image size_query_fails_host 2 0 image_a
                                 (@initial size_query_fails_host 0%nat))))) = [o]
    /\ field "status" o = JString "success"
    /\ field "size" o = JString EmptyString.
Proof.
  destruct (@inspect_failure_is_not_fatal size_query_fails_host 2 0 image_a
              "a:1" "b:1" "linux/amd64" (@initial size_query_fails_host 0%nat)
              3%nat 5%nat (mkInfo "sha256:abc" EmptyString)
              [digest_args (JString "b:1"); size_args (JString "b:1")]
              exit_code_1)
    as (o & tr & E & _ & _ & St & Sz & _).
  - unfold describes. repeat split; try reflexivity; discriminate.
  - exists 1%nat, EmptyString, 2%nat, EmptyString, EmptyString.
    repeat split; reflexivity.
  - apply (@inspect_no_size size_query_fails_host _ _ 4%nat "sha256:abc" 5%nat
             exit_code_1); reflexivity.
  - exists o. rewrite E. cbn [fst snd locals results app]. repeat split; assumption.
Defined.

(** C5, as stated, fails: when it is the size query that fails, the
    outcome keeps the digest already retrieved instead of leaving it
    empty. *)
Lemma size_failure_keeps_digest :
  ~ (forall (H : Host) (len i : Z) (image : jsval) (s d a : string)
            (st : state run_locals) (w3 w4 : World) (inf : imageInfo)
            (calls : list (list jsval)) (e : exn),
        describes image s d a ->
        transfer_succeeds (JString s) (JString d) (JString a) (world st) w3 ->
        inspection (JString d) w3 w4 inf calls (Some e) ->
        exists o,
          results (locals (snd (fst (mirror_image len i image st))))
          = (results (locals st) ++ [o])%list
          /\ field "status" o = JString "success"
          /\ field "digest" o = JString EmptyString
          /\ field "size" o = JString EmptyString).
Proof.
  intros C.
  destruct (C size_query_fails_host 2%Z 0%Z image_a "a:1" "b:1" "linux/amd64"
              (@initial size_query_fails_host 0%nat) 3%nat 5%nat
              (mkInfo "sha256:abc" EmptyString)
              [digest_args (JString "b:1"); size_args (JString "b:1")]
              exit_code_1)
    as (o & E & _ & Dg & _).
  - unfold describes. repeat split; try reflexivity; discriminate.
  - exists 1%nat, EmptyString, 2%nat, EmptyString, EmptyString.
    repeat split; reflexivity.
  - apply (@inspect_no_size size_query_fails_host _ _ 4%nat "sha256:abc" 5%nat
             exit_code_1); reflexivity.
  - vm_compute in E. injection E as <-. discriminate Dg.
Qed.

Lemma pull_always_carries_platform_witness :
  exists rest,
    docker_calls (snd (@mirror_image second_pull_fails_host 2 0 image_a
                         (@initial second_pull_fails_host 0%nat)))
    = [JString "pull"; JString "--platform"; JString "linux/amd64"; JString "a:1"]
        :: rest.
Proof.
  refine (proj2 (@pull_always_carries_platform second_pull_fails_host 2 0 image_a
                   (@initial second_pull_fails_host 0%nat) _) _); reflexivity.
Defined.

(** The scenario of the two images, the second of which cannot be
    pulled: one success with digest and size, one failure with the
    error of the pull. *)
Example scenario_second_pull_fails :
  results (locals (snd (fst (@run_action second_pull_fails_host 0%nat))))
  = [JObject [("source", JString "a:1"); ("destination", JString "b:1");
              ("digest", JString "sha256:abc"); ("size", JString "1234");
              ("status", JString "success")];
     JObject [("source", JString "x:1"); ("destination", JString "y:1");
              ("digest", JString EmptyString); ("size", JString EmptyString);
              ("status", JString "failed");
              ("error", JString "The process '/usr/bin/docker' failed with exit code 1")]]
  /\ outputs (snd (@run_action second_pull_fails_host 0%nat))
     = [("results",
         "[{" ++ quoted "source" ++ ":" ++ quoted "a:1" ++ ","
         ++ quoted "destination" ++ ":" ++ quoted "b:1" ++ ","
         ++ quoted "digest" ++ ":" ++ quoted "sha256:abc" ++ ","
         ++ quoted "size" ++ ":" ++ quoted "1234" ++ ","
         ++ quoted "status" ++ ":" ++ quoted "success" ++ "},{"
         ++ quoted "source" ++ ":" ++ quoted "x:1" ++ ","
         ++ quoted "destination" ++ ":" ++ quoted "y:1" ++ ","
         ++ quoted "digest" ++ ":" ++ quoted EmptyString ++ ","
         ++ quoted "size" ++ ":" ++ quoted EmptyString ++ ","
         ++ quoted "status" ++ ":" ++ quoted "failed" ++ ","
         ++ quoted "error" ++ ":"
         ++ quoted "The process '/usr/bin/docker' failed with exit code 1" ++ "}]");
        ("success-count", "1"); ("total-count", "2")].
Proof. split; vm_compute; reflexivity. Qed.

(** The check of line 39 tests truthiness, not type. An element whose
    source is an object with an own [toString] property passes it, is
    not a descriptor, and cannot be interpolated into the log lines:
    the error thrown while reporting the failure leaves the loop. *)
Example untyped_source_leaves_the_loop :
  let image := JObject [("source", JObject [("toString", JNull)]);
                        ("destination", JString "b:1");
                        ("architecture", JString "linux/amd64")] in
  let h := scripted_host "[...]" EmptyString (inr (JArray [image; image_a]))
             (fun _ => inr EmptyString) in
  @passes_check image = true
  /\ is_descriptor image = false
  /\ @run_action h 0%nat
     = (inr tt, @initial h 0%nat,
        [Info "Starting mirror process for 2 image(s)";
         SetFailed "Action failed with error: Cannot convert object to primitive value"]).
Proof. repeat split. Qed.

(** ** Reading the input: the failures of the parse *)

Section Parse.

Context {H : Host}.

(** The inline channel holds text that does not parse: the run does
    nothing but signal one failure, which names the [images] input
    and carries the parser's message. *)
Theorem inline_parse_failure (w : World) (e : exn) :
  getInput "images" <> EmptyString ->
  getInput "images-file" = EmptyString ->
  JSON_parse (getInput "images") = inl e ->
  run_action w
  = (inr tt, initial w,
     [SetFailed ("Action failed with error: Invalid images format in images input."
                 ++ " Expected JSON array or object: " ++ message e)]).
Proof.
  intros Hi Hf Hp. apply str_truthy_true in Hi.
  unfold run_action, run, try_catch, bind, read_images.
  rewrite Hi, Hf. cbn [str_truthy negb andb].
  unfold try_catch, bind, lift. rewrite Hp. reflexivity.
Qed.

(** The file channel cannot be read, or its content does not parse:
    the run logs which file it reads, then signals one failure that
    names the file and carries the underlying message. Nothing else
    happens. *)
Theorem file_channel_failure (w : World) (e : exn) :
  getInput "images" = EmptyString ->
  getInput "images-file" <> EmptyString ->
  (readFileSync (getInput "images-file") = inl e
   \/ exists content,
       readFileSync (getInput "images-file") = inr content
       /\ JSON_parse content = inl e) ->
  run_action w
  = (inr tt, initial w,
     [Info ("Reading images from file: " ++ getInput "images-file");
      SetFailed ("Action failed with error: Invalid images format in images file: "
                 ++ getInput "images-file"
                 ++ ". Expected JSON array or object: " ++ message e)]).
Proof.
  intros Hi Hf Hr. apply str_truthy_true in Hf.
  unfold run_action, run, try_catch, bind, read_images.
  rewrite Hi, Hf. cbn [str_truthy negb andb].
  unfold try_catch, bind, lift, info, emit.
  destruct Hr as [Hr | (content & Hr & Hp)].
  - rewrite Hr. reflexivity.
  - rewrite Hr, Hp. reflexivity.
Qed.

End Parse.

(** The inline text is not JSON. *)
Definition bad_inline_host : Host :=
  scripted_host "{source:" EmptyString
    (inl (JsError "Unexpected token s in JSON at position 1"))
    (fun _ => inr EmptyString).

(** The file named by [images-file] does not exist. *)
Definition missing_file_host : Host :=
  scripted_host EmptyString "images.json" (inr (JArray [])) (fun _ => inr EmptyString).

Lemma inline_parse_failure_witness :
  @run_action bad_inline_host 0%nat
  = (inr tt, @initial bad_inline_host 0%nat,
     [SetFailed ("Action failed with error: Invalid images format in images input."
                 ++ " Expected JSON array or object: "
                 ++ "Unexpected token s in JSON at position 1")]).
Proof.
  apply (@inline_parse_failure bad_inline_host 0%nat
           (JsError "Unexpected token s in JSON at position 1")).
  - discriminate.
  - reflexivity.
  - reflexivity.
Defined.

Lemma file_channel_failure_witness :
  @run_action missing_file_host 0%nat
  = (inr tt, @initial missing_file_host 0%nat,
     [Info "Reading images from file: images.json";
      SetFailed ("Action failed with error: Invalid images format in images file: "
                 ++ "images.json. Expected JSON array or object: "
                 ++ "ENOENT: no such file or directory")]).
Proof.
  apply (@file_channel_failure missing_file_host 0%nat
           (JsError "ENOENT: no such file or directory")).
  - reflexivity.
  - discriminate.
  - left. reflexivity.
Defined.

(** ** What the parts never do *)

(** Events other than setting an output or signalling a failure. *)
Definition quiet_event (e : event) : bool :=
  match e with
  | SetOutput _ _ | SetFailed _ => false
  | Info _ | Warning _ | ErrorLog _ | Docker _ => true
  end.

Section Quiet.

Context {H : Host}.

(** A computation that sets no output and signals no failure, however
    it ends. *)
Definition quiet {L A} (m : M L A) : Prop :=
  forall st, forallb quiet_event (snd (m st)) = true.

Lemma quiet_trace (tr : list event) :
  forallb quiet_event tr = true -> outputs tr = [] /\ failures tr = [].
Proof.
  induction tr as [| e tr IH]; [auto |].
  cbn [forallb]. intros Q. apply andb_prop in Q. destruct Q as [Qe Q].
  destruct (IH Q) as [O F].
  destruct e; try discriminate Qe; cbn; auto.
Qed.

Lemma quiet_ret {L A} (a : A) : quiet (ret a : M L A).
Proof. intros st. reflexivity. Qed.

Lemma quiet_throw {L A} (e : exn) : quiet (throw e : M L A).
Proof. intros st. reflexivity. Qed.

Lemma quiet_lift {L A} (r : exn + A) : quiet (lift r : M L A).
Proof. intros st. reflexivity. Qed.

Lemma quiet_get_locals {L} : quiet (get_locals : M L L).
Proof. intros st. reflexivity. Qed.

Lemma quiet_update {L} (f : L -> L) : quiet (update f).
Proof. intros st. reflexivity. Qed.

Lemma quiet_emit {L} (e : event) : quiet_event e = true -> quiet (emit e : M L unit).
Proof. intros Q st. cbn. now rewrite Q. Qed.

Lemma quiet_docker_exec {L} (args : list jsval) : quiet (docker_exec args : M L string).
Proof.
  intros st. unfold docker_exec. destruct (docker args (world st)). reflexivity.
Qed.

Lemma quiet_bind {L A B} (m : M L A) (f : A -> M L B) :
  quiet m -> (forall a, quiet (f a)) -> quiet (bind m f).
Proof.
  intros Qm Qf st. unfold bind. specialize (Qm st).
  destruct (m st) as [[[e | a] st1] tr1]; cbn [snd] in *; [exact Qm |].
  specialize (Qf a st1). destruct (f a st1) as [[r st2] tr2]. cbn [snd] in *.
  now rewrite forallb_app, Qm, Qf.
Qed.

Lemma quiet_try_catch {L A} (body : M L A) (handler : exn -> M L A) :
  quiet body -> (forall e, quiet (handler e)) -> quiet (try_catch body handler).
Proof.
  intros Qb Qh st. unfold try_catch. specialize (Qb st).
  destruct (body st) as [[[e | a] st1] tr1]; cbn [snd] in *; [| exact Qb].
  specialize (Qh e st1). destruct (handler e st1) as [[r st2] tr2]. cbn [snd] in *.
  now rewrite forallb_app, Qb, Qh.
Qed.

Lemma quiet_call {L L' A} (init : L') (m : M L' A) : quiet m -> quiet (call init m : M L A).
Proof.
  intros Qm st. unfold call. specialize (Qm (mkState init (world st))).
  destruct (m (mkState init (world st))) as [[r st1] tr]. exact Qm.
Qed.

Ltac quiet_step :=
  first
    [ apply quiet_ret | apply quiet_throw | apply quiet_lift | apply quiet_get_locals
    | apply quiet_update | apply quiet_docker_exec
    | apply quiet_emit; reflexivity
    | apply quiet_call
    | apply quiet_bind; [| intros ?]
    | apply quiet_try_catch; [| intros ?]
    | match goal with
      | |- quiet (if ?b then _ else _) => destruct b
      | |- quiet (let _ := _ in _) => cbv zeta
      end ].

Lemma getImageInfo_quiet {L} (image : jsval) : quiet (getImageInfo image : M L imageInfo).
Proof. unfold getImageInfo, warning. repeat quiet_step. Qed.

Lemma read_images_quiet {L} : quiet (read_images : M L (list jsval)).
Proof. unfold read_images, info. repeat quiet_step. Qed.

Lemma mirror_image_quiet (len i : Z) (image : jsval) : quiet (mirror_image len i image).
Proof.
  unfold mirror_image, results_push, info, error.
  repeat first [apply getImageInfo_quiet | quiet_step].
Qed.

Lemma mirror_loop_quiet (len : Z) (images : list jsval) :
  forall i, quiet (mirror_loop len i images).
Proof.
  induction images as [| image rest IH]; intros i; cbn [mirror_loop].
  - apply quiet_ret.
  - apply quiet_bind; [apply mirror_image_quiet | intros _; apply IH].
Qed.

Lemma check_image_rejects {L} (image : jsval) (st : state L) :
  passes_check image = false -> exists e, check_image image st = (inl e, st, []).
Proof.
  intros P.
  destruct image;
    try (eexists; apply check_image_missing; [discriminate | discriminate | exact P]).
  - eexists. reflexivity.
  - eexists. reflexivity.
Qed.

Lemma validate_pure {L} (images : list jsval) (st : state L) :
  snd (fst (validate images st)) = st /\ snd (validate images st) = [].
Proof.
  induction images as [| image rest IH]; [cbn; tauto |].
  cbn [validate]. unfold bind.
  destruct (passes_check image) eqn:P.
  - rewrite (check_image_passes _ _ P).
    destruct (validate rest st) as [[r st'] tr]. cbn [fst snd app] in *. exact IH.
  - destruct (check_image_rejects image st P) as (e & E). rewrite E. cbn. tauto.
Qed.

(** Validation has no effect of its own: it leaves the state as it
    was and emits nothing. It accepts exactly the lists all of whose
    elements are neither [null] nor [undefined] and have a truthy
    [source], [destination] and [architecture]; any other list makes
    it throw. *)
Theorem validate_accepts_exactly {L} (images : list jsval) (st : state L) :
  snd (fst (validate images st)) = st
  /\ snd (validate images st) = []
  /\ (fst (fst (validate images st)) = inr tt <-> forallb passes_check images = true).
Proof.
  induction images as [| image rest IH]; [cbn; tauto |].
  cbn [validate forallb]. unfold bind.
  destruct (passes_check image) eqn:P.
  - rewrite (check_image_passes _ _ P).
    destruct (validate rest st) as [[r st'] tr]. cbn [fst snd andb app] in *. exact IH.
  - destruct (check_image_rejects image st P) as (e & E). rewrite E.
    cbn [fst snd andb]. repeat split; intros X; discriminate X.
Qed.

(** [getImageInfo] never throws and never touches the caller's
    variables. It asks the engine the digest query, then at most the
    size query, both about the image it was given. It logs at most one
    warning, and whenever it warns the size it returns is empty. *)
Theorem getImageInfo_never_throws {L} (image : jsval) (st : state L) :
  exists i w' tr,
    getImageInfo image st = (inr i, mkState (locals st) w', tr)
    /\ (docker_calls tr = [digest_args image]
        \/ docker_calls tr = [digest_args image; size_args image])
    /\ outputs tr = [] /\ failures tr = [] /\ error_logs tr = []
    /\ (warnings tr = []
        \/ size i = EmptyString /\ exists e, warnings tr = [inspect_warning e]).
Proof.
  destruct (inspection_total image (world st)) as (w' & i & calls & err & Hi).
  destruct (getImageInfo_inspection image st w' i calls err Hi)
    as (tr & E & C & W & O & F & Lg).
  exists i, w', tr. rewrite C, W. repeat split; auto.
  - destruct Hi; auto.
  - destruct Hi; [left; reflexivity | right | right]; split; eauto.
Qed.


End Quiet.

(** ** The loop, iteration by iteration *)

(** The elements, the outcomes appended for them and the trace of the
    loop, related iteration by iteration by [R]. *)
Inductive iterations (R : jsval -> jsval -> list event -> Prop)
  : list jsval -> list jsval -> list event -> Prop :=
| iterations_nil : iterations R [] [] []
| iterations_cons image images o os tr trs :
    R image o tr ->
    iterations R images os trs ->
    iterations R (image :: images) (o :: os) (tr ++ trs).

Section Loop.

Context {H : Host}.

Lemma iterations_length (R : jsval -> jsval -> list event -> Prop)
    (images os : list jsval) (tr : list event) :
  iterations R images os tr -> List.length os = List.length images.
Proof. induction 1; cbn [List.length]; congruence. Qed.

Lemma iterations_fields (R : jsval -> jsval -> list event -> Prop) (k : string)
    (images os : list jsval) (tr : list event) :
  (forall image o t, R image o t -> field k o = field k image) ->
  iterations R images os tr -> map (field k) os = map (field k) images.
Proof.
  intros HR. induction 1 as [| image images o os t ts Hr _ IH]; [reflexivity |].
  cbn [map]. now rewrite (HR _ _ _ Hr), IH.
Qed.

Lemma iterations_calls_between (R : jsval -> jsval -> list event -> Prop)
    (lo hi : nat) (images os : list jsval) (tr : list event) :
  (forall image o t, R image o t ->
                     (lo <= List.length (docker_calls t) <= hi)%nat) ->
  iterations R images os tr ->
  (List.length images * lo <= List.length (docker_calls tr)
   <= List.length images * hi)%nat.
Proof.
  intros HR. induction 1 as [| image images o os t ts Hr _ IH]; [cbn; lia |].
  rewrite docker_calls_app, length_app. cbn [List.length].
  pose proof (HR _ _ _ Hr). lia.
Qed.

Lemma iterations_all_success (R : jsval -> jsval -> list event -> Prop)
    (images os : list jsval) (tr : list event) :
  (forall image o t, R image o t -> is_success o = true) ->
  iterations R images os tr ->
  forallb is_success os = true /\ count_success os = Z.of_nat (List.length images).
Proof.
  intros HR. induction 1 as [| image images o os t ts Hr _ [IHa IHc]]; [split; reflexivity |].
  rewrite count_success_cons. cbn [forallb List.length].
  rewrite (HR _ _ _ Hr), IHa, IHc. split; [reflexivity | lia].
Qed.



(** If every iteration returns normally with one outcome appended,
    counted when it is a success, so does the loop, with the outcomes
    in the order of the elements. *)
Lemma mirror_loop_iterations (R : jsval -> jsval -> list event -> Prop) (len : Z)
    (images : list jsval) :
  (forall image, In image images ->
     forall i st, exists o w' tr,
       mirror_image len i image st
       = (inr tt,
          mkState (mkLocals (results (locals st) ++ [o])%list
                            (successCount (locals st)
                             + (if is_success o then 1 else 0))) w',
          tr)
       /\ R image o tr) ->
  forall i st, exists os w' tr,
    mirror_loop len i images st
    = (inr tt,
       mkState (mkLocals (results (locals st) ++ os)%list
                         (successCount (locals st) + count_success os)) w',
       tr)
    /\ iterations R images os tr.
Proof.
  induction images as [| image rest IH]; intros Step i st.
  - exists [], (world st), []. split; [| constructor].
    cbn [mirror_loop]. unfold ret, count_success. cbn.
    rewrite app_nil_r, Z.add_0_r. destruct st as [[rs sc] w]. reflexivity.
  - destruct (Step image (or_introl eq_refl) i st) as (o & w1 & tr1 & E1 & R1).
    destruct (IH (fun im Hin => Step im (or_intror Hin)) (i + 1)%Z
                (mkState (mkLocals (results (locals st) ++ [o])%list
                                   (successCount (locals st)
                                    + (if is_success o then 1 else 0))) w1))
      as (os & w' & tr2 & E2 & R2).
    exists (o :: os), w', (tr1 ++ tr2)%list. split; [| constructor; assumption].
    cbn [mirror_loop]. unfold bind. rewrite E1, E2. cbn [locals results successCount].
    rewrite <- app_assoc. cbn [app]. rewrite count_success_cons, Z.add_assoc.
    reflexivity.
Qed.

(** The run around a loop that returns. *)
Lemma run_loop_returns (w : World) (v : jsval) (st1 : state run_locals)
    (tr1 : list event) :
  input_parses_to v ->
  forallb passes_check (as_array v) = true ->
  mirror_loop (Z.of_nat (List.length (as_array v))) 0 (as_array v) (initial w)
  = (inr tt, st1, tr1) ->
  let n := Z.of_nat (List.length (as_array v)) in
  exists tr,
    run_action w = (inr tt, st1, tr)
    /\ docker_calls tr = docker_calls tr1
    /\ outputs tr = [("results", JSON_stringify_array (results (locals st1)));
                     ("success-count", dec (successCount (locals st1)));
                     ("total-count", dec n)]
    /\ failures tr = if (successCount (locals st1) =? n)%Z then []
                     else [shortfall_message (n - successCount (locals st1)) n].
Proof.
  intros P V E1 n.
  destruct (read_images_parsed v (initial w) P) as (tr0 & E0 & C0 & O0 & F0 & _).
  pose proof (validate_passes _ (initial w) V) as Ev.
  pose proof (mirror_loop_quiet n (as_array v) 0%Z (initial w)) as Q1.
  fold n in E1. rewrite E1 in Q1. cbn [snd] in Q1. apply quiet_trace in Q1.
  destruct Q1 as [O1 F1].
  destruct (report_trace n st1) as (tr2 & E2 & C2 & O2 & F2).
  exists (tr0 ++ [Info ("Starting mirror process for " ++ dec n ++ " image(s)")]
          ++ tr1 ++ tr2)%list.
  split.
  - unfold run_action, run, try_catch. unfold bind at 1. fold (initial w).
    rewrite E0. unfold bind at 1. rewrite Ev.
    unfold bind, info, emit, update, initial in *. cbn [locals world]. fold n.
    rewrite E1, E2. reflexivity.
  - rewrite !docker_calls_app, !outputs_app, !failures_app.
    rewrite C0, C2, O0, O1, O2, F0, F1, F2. cbn. rewrite app_nil_r. auto.
Qed.

(** The run around a loop that throws. *)
Lemma run_loop_throws (w : World) (v : jsval) (e : exn) (st1 : state run_locals)
    (tr1 : list event) :
  input_parses_to v ->
  forallb passes_check (as_array v) = true ->
  mirror_loop (Z.of_nat (List.length (as_array v))) 0 (as_array v) (initial w)
  = (inl e, st1, tr1) ->
  exists tr,
    run_action w = (inr tt, st1, tr)
    /\ docker_calls tr = docker_calls tr1
    /\ outputs tr = []
    /\ failures tr = ["Action failed with error: " ++ message e].
Proof.
  intros P V E1. set (n := Z.of_nat (List.length (as_array v))) in *.
  destruct (read_images_parsed v (initial w) P) as (tr0 & E0 & C0 & O0 & F0 & _).
  pose proof (validate_passes _ (initial w) V) as Ev.
  pose proof (mirror_loop_quiet n (as_array v) 0%Z (initial w)) as Q1.
  rewrite E1 in Q1. cbn [snd] in Q1. apply quiet_trace in Q1.
  destruct Q1 as [O1 F1].
  exists ((tr0 ++ [Info ("Starting mirror process for " ++ dec n ++ " image(s)")]
           ++ tr1)
          ++ [SetFailed ("Action failed with error: " ++ message e)])%list.
  split.
  - unfold run_action, run, try_catch. unfold bind at 1. fold (initial w).
    rewrite E0. unfold bind at 1. rewrite Ev.
    unfold bind, info, setFailed, emit, update, initial in *. cbn [locals world].
    fold n. rewrite E1. reflexivity.
  - rewrite !docker_calls_app, !outputs_app, !failures_app.
    rewrite C0, O0, O1, F0, F1. cbn. rewrite app_nil_r. auto.
Qed.

End Loop.

(** ** One iteration, beyond descriptors *)

(** The element passes the check of line 39 and its source and
    destination can be interpolated into the log lines. *)
Definition interpolable {H : Host} (image : jsval) : bool :=
  passes_check image
  && match ToString (field "source" image) with inr _ => true | inl _ => false end
  && match ToString (field "destination" image) with inr _ => true | inl _ => false end.

Section Elements.

Context {H : Host}.

Ltac enter_iteration P :=
  unfold mirror_image;
  unfold bind at 1; unfold lift at 1;
  rewrite (destructure_prop_get _ _ _ (passes_check_get _ "source" P));
  unfold bind at 1; unfold lift at 1;
  rewrite (destructure_prop_get _ _ _ (passes_check_get _ "destination" P));
  unfold bind at 1; unfold lift at 1;
  rewrite (destructure_prop_get _ _ _ (passes_check_get _ "architecture" P));
  unfold try_catch, bind, lift, info, error, emit, docker_exec, results_push,
    update, ret;
  cbn [world locals].

Ltac failed_leaf src dst e :=
  exists (failed_outcome src dst e); do 2 eexists;
  split;
  [ cbn [is_success failed_outcome field get_prop own_property String.eqb
           Ascii.eqb Bool.eqb];
    rewrite Z.add_0_r; reflexivity
  | repeat split ].

(** An element whose source and destination can be interpolated is
    isolated: the iteration returns normally with one outcome for it. *)
Lemma mirror_image_isolated (len i : Z) (image : jsval) (st : state run_locals) :
  interpolable image = true ->
  exists o w' tr,
    mirror_image len i image st
    = (inr tt,
       mkState (mkLocals (results (locals st) ++ [o])%list
                         (successCount (locals st) + (if is_success o then 1 else 0)))
               w',
       tr)
    /\ field "source" o = field "source" image
    /\ field "destination" o = field "destination" image
    /\ is_failed o = negb (is_success o).
Proof.
  intros I. unfold interpolable in I.
  apply andb_prop in I. destruct I as [I Td]. apply andb_prop in I. destruct I as [P Ts].
  enter_iteration P.
  set (src := field "source" image) in *. set (dst := field "destination" image) in *.
  set (arch := field "architecture" image).
  destruct (ToString src) as [es | ss]; [discriminate Ts |].
  destruct (ToString dst) as [ed | sd]; [discriminate Td |].
  destruct (truthy arch); [destruct (ToString arch) as [ea | sa] |];
    cbn [world locals]; try solve [failed_leaf src dst ea].
  all: destruct (docker (pull_args src arch) (world st)) as [w1 [e | o1]];
    cbn [world locals]; [solve [failed_leaf src dst e] |].
  all: destruct (docker (tag_args src dst) w1) as [w2 [e | o2]];
    cbn [world locals]; [solve [failed_leaf src dst e] |].
  all: destruct (docker (push_args dst) w2) as [w3 [e | o3]];
    cbn [world locals]; [solve [failed_leaf src dst e] |].
  all: destruct (inspection_total dst w3) as (w4 & inf & calls & err & Hi);
    destruct (getImageInfo_inspection dst (mkState (locals st) w3) w4 inf calls err Hi)
      as (tri & Ei & _);
    rewrite Ei; cbn [world locals results successCount];
    exists (success_outcome src dst inf); do 2 eexists;
    split; [reflexivity | repeat split].
Qed.

(** An element whose source or destination cannot be interpolated
    throws out of the iteration, from the handler of line 84, before
    anything is logged or asked of the engine. *)
Lemma mirror_image_aborts (len i : Z) (image : jsval) (st : state run_locals) (e : exn) :
  passes_check image = true ->
  ToString (field "source" image) = inl e
  \/ (exists s, ToString (field "source" image) = inr s)
     /\ ToString (field "destination" image) = inl e ->
  mirror_image len i image st = (inl e, st, []).
Proof.
  intros P T.
  enter_iteration P.
  set (src := field "source" image) in *. set (dst := field "destination" image) in *.
  set (arch := field "architecture" image).
  destruct T as [Ts | [[s Ts] Td]].
  - rewrite Ts.
    destruct (truthy arch); [destruct (ToString arch) as [ea | sa] |];
      destruct st; reflexivity.
  - rewrite Ts, Td.
    destruct (truthy arch); [destruct (ToString arch) as [ea | sa] |];
      destruct st; reflexivity.
Qed.

(** The loop over a concatenation is the loop over the first part
    followed by the loop over the second, the index running on. *)
Lemma mirror_loop_app (len : Z) (pre rest : list jsval) :
  forall i st,
    mirror_loop len i (pre ++ rest) st
    = bind (mirror_loop len i pre)
        (fun _ => mirror_loop len (i + Z.of_nat (List.length pre)) rest) st.
Proof.
  induction pre as [| image pre IH]; intros i st.
  - cbn [app mirror_loop List.length]. unfold bind, ret. rewrite Z.add_0_r.
    destruct (mirror_loop len i rest st) as [[r st'] tr]. reflexivity.
  - cbn [app mirror_loop]. unfold bind.
    destruct (mirror_image len i image st) as [[[e | []] st1] tr1]; [reflexivity |].
    rewrite IH. unfold bind.
    destruct (mirror_loop len (i + 1) pre st1) as [[[e | []] st2] tr2]; [reflexivity |].
    replace (i + 1 + Z.of_nat (List.length pre))%Z
      with (i + Z.of_nat (List.length (image :: pre)))%Z
      by (cbn [List.length]; lia).
    destruct (mirror_loop len (i + Z.of_nat (List.length (image :: pre))) rest st2)
      as [[r st3] tr3].
    rewrite app_assoc. reflexivity.
Qed.

Lemma describes_pull (image : jsval) (s d a : string) :
  describes image s d a ->
  pull_args (JString s) (JString a) = descriptor_pull image.
Proof.
  intros D. destruct (describes_field _ _ _ _ D) as (Fs & _ & Fa).
  unfold descriptor_pull. rewrite Fs, Fa. apply pull_args_platform.
  cbn [truthy]. apply str_truthy_true. apply D.
Qed.

(** One iteration on a descriptor costs between one and five engine
    invocations, the first being the pull, the only pull. *)
Lemma mirror_image_descriptor_calls (len i : Z) (image : jsval) (st : state run_locals) :
  is_descriptor image = true ->
  exists o w' tr,
    mirror_image len i image st
    = (inr tt,
       mkState (mkLocals (results (locals st) ++ [o])%list
                         (successCount (locals st) + (if is_success o then 1 else 0)))
               w',
       tr)
    /\ exists rest,
        docker_calls tr = descriptor_pull image :: rest
        /\ filter is_pull rest = []
        /\ (List.length rest <= 4)%nat.
Proof.
  intros D. apply is_descriptor_describes in D.
  set (s := match field "source" image with JString s => s | _ => EmptyString end) in *.
  set (d := match field "destination" image with JString s => s | _ => EmptyString end) in *.
  set (a := match field "architecture" image with JString s => s | _ => EmptyString end) in *.
  pose proof (describes_pull _ _ _ _ D) as Ep.
  destruct (transfer_total (JString s) (JString d) (JString a) (world st))
    as [(w' & calls & e & Hf) | (w3 & Hok)].
  - destruct (mirror_image_failed len i image s d a st w' calls e D Hf)
      as (tr & E & C & _).
    exists (failed_outcome (JString s) (JString d) e), w', tr.
    rewrite E. cbn [is_success failed_outcome field get_prop own_property String.eqb
                      Ascii.eqb Bool.eqb].
    rewrite Z.add_0_r. split; [reflexivity |].
    exists (tl calls). rewrite C, <- Ep. destruct Hf; repeat split; cbn; lia.
  - destruct (inspection_total (JString d) w3) as (w4 & inf & calls & err & Hi).
    destruct (mirror_image_succeeded len i image s d a st w3 w4 inf calls err D Hok Hi)
      as (tr & E & C & _).
    exists (success_outcome (JString s) (JString d) inf), w4, tr.
    rewrite E. split; [reflexivity |].
    exists ([tag_args (JString s) (JString d); push_args (JString d)] ++ calls)%list.
    rewrite C, <- Ep. destruct Hi; repeat split; cbn; lia.
Qed.

End Elements.

(** ** Further properties of the batch *)

Section Further.

Context {H : Host}.

Lemma iterations_outcomes (R : jsval -> jsval -> list event -> Prop)
    (Q : jsval -> Prop) (images os : list jsval) (tr : list event) :
  (forall image o t, R image o t -> Q o) ->
  iterations R images os tr -> Forall Q os.
Proof. intros HR. induction 1; constructor; eauto. Qed.

Lemma interpolable_passes (images : list jsval) :
  forallb interpolable images = true -> forallb passes_check images = true.
Proof.
  rewrite !forallb_forall. intros A x Hx. specialize (A x Hx).
  unfold interpolable in A. apply andb_prop in A. destruct A as [A _].
  apply andb_prop in A. apply A.
Qed.

(** A single value that is not an array is mirrored as a batch of
    one: for a lone descriptor object the run pulls once, leaves one
    outcome for it and reports a total of 1. *)
Theorem single_value_is_a_batch_of_one (w : World) (v : jsval) :
  input_parses_to v ->
  is_descriptor v = true ->
  exists o,
    results (locals (snd (fst (run_action w)))) = [o]
    /\ field "source" o = field "source" v
    /\ field "destination" o = field "destination" v
    /\ filter is_pull (docker_calls (snd (run_action w))) = [descriptor_pull v]
    /\ In ("total-count", "1") (outputs (snd (run_action w))).
Proof.
  intros P D.
  assert (A : as_array v = [v]) by (destruct v; try discriminate D; reflexivity).
  assert (D' : forallb is_descriptor (as_array v) = true)
    by (rewrite A; cbn [forallb]; now rewrite D).
  destruct (run_descriptors w v P D') as (os & w' & tr & E & Ms & Md & _ & C & O & _).
  rewrite A in Ms, Md, C, O. rewrite E. cbn [fst snd locals results].
  destruct os as [| o [| o' os]]; try discriminate Ms.
  injection Ms as Ms. injection Md as Md.
  exists o. repeat split; auto.
  rewrite O. cbn. auto.
Qed.

(** The path on which nothing fails. For a descriptor whose pull, tag,
    push and both inspect queries succeed, the iteration appends the
    success record with the trimmed answers of the two queries as
    digest and size, counts it, and has asked the engine exactly the
    five invocations in order; nothing is warned about or logged as an
    error. *)
Theorem full_success_outcome (len i : Z) (image : jsval) (s d a : string)
    (st : state run_locals) (w3 w4 w5 : World) (o1 o2 : string) :
  describes image s d a ->
  transfer_succeeds (JString s) (JString d) (JString a) (world st) w3 ->
  docker (digest_args (JString d)) w3 = (w4, inr o1) ->
  docker (size_args (JString d)) w4 = (w5, inr o2) ->
  exists tr,
    mirror_image len i image st
    = (inr tt,
       mkState
         (mkLocals
            (results (locals st)
             ++ [JObject [("source", JString s); ("destination", JString d);
                          ("digest", JString (String_trim o1));
                          ("size", JString (String_trim o2));
                          ("status", JString "success")]])%list
            (successCount (locals st) + 1)) w5,
       tr)
    /\ docker_calls tr
       = [[JString "pull"; JString "--platform"; JString a; JString s];
          [JString "tag"; JString s; JString d];
          [JString "push"; JString d];
          [JString "inspect"; JString "--format={{index .RepoDigests 0}}"; JString d];
          [JString "inspect"; JString "--format={{.Size}}"; JString d]]
    /\ warnings tr = [] /\ error_logs tr = []
    /\ outputs tr = [] /\ failures tr = [].
Proof.
  intros D Hok Hd Hs.
  destruct (mirror_image_succeeded len i image s d a st w3 w5 _ _ None D Hok
              (inspect_both (JString d) w3 w4 o1 w5 o2 Hd Hs))
    as (tr & E & C & W & O & F & Lg).
  exists tr. rewrite E, C. repeat split; auto.
  cbn [app]. rewrite pull_args_platform; [reflexivity |].
  cbn [truthy]. apply str_truthy_true. apply D.
Qed.

(** Against an engine that never fails, every descriptor is mirrored:
    all outcomes are successes, the counter reaches the total, no
    failure is signalled, and the engine has been asked exactly five
    invocations per descriptor. *)
Theorem reliable_engine_mirrors_everything (w : World) (v : jsval) :
  input_parses_to v ->
  forallb is_descriptor (as_array v) = true ->
  (forall args w0, exists w1 o, docker args w0 = (w1, inr o)) ->
  forallb is_success (results (locals (snd (fst (run_action w))))) = true
  /\ List.length (results (locals (snd (fst (run_action w)))))
     = List.length (as_array v)
  /\ successCount (locals (snd (fst (run_action w))))
     = Z.of_nat (List.length (as_array v))
  /\ failures (snd (run_action w)) = []
  /\ List.length (docker_calls (snd (run_action w)))
     = (List.length (as_array v) * 5)%nat.
Proof.
  intros P D Rel.
  set (R := fun (image o : jsval) (tr : list event) =>
              is_success o = true /\ List.length (docker_calls tr) = 5%nat).
  assert (Step : forall image, In image (as_array v) ->
            forall i st, exists o w' tr,
              mirror_image (Z.of_nat (List.length (as_array v))) i image st
              = (inr tt,
                 mkState (mkLocals (results (locals st) ++ [o])%list
                            (successCount (locals st)
                             + (if is_success o then 1 else 0))) w', tr)
              /\ R image o tr).
  { intros image Hin i st.
    pose proof (is_descriptor_describes _ (proj1 (forallb_forall _ _) D _ Hin)) as Dsc.
    set (s := match field "source" image with JString s => s | _ => EmptyString end) in *.
    set (d := match field "destination" image with JString s => s | _ => EmptyString end)
      in *.
    set (a := match field "architecture" image with JString s => s | _ => EmptyString end)
      in *.
    destruct (Rel (pull_args (JString s) (JString a)) (world st)) as (w1 & o1 & E1).
    destruct (Rel (tag_args (JString s) (JString d)) w1) as (w2 & o2 & E2).
    destruct (Rel (push_args (JString d)) w2) as (w3 & o3 & E3).
    destruct (Rel (digest_args (JString d)) w3) as (w4 & o4 & E4).
    destruct (Rel (size_args (JString d)) w4) as (w5 & o5 & E5).
    destruct (mirror_image_succeeded (Z.of_nat (List.length (as_array v))) i image
                s d a st w3 w5 _ _ None Dsc
                (ex_intro _ w1 (ex_intro _ o1 (ex_intro _ w2 (ex_intro _ o2
                   (ex_intro _ o3 (conj E1 (conj E2 E3)))))))
                (inspect_both (JString d) w3 w4 o4 w5 o5 E4 E5))
      as (tr & E & C & _).
    do 3 eexists. split; [exact E |]. split; [reflexivity |]. now rewrite C. }
  destruct (mirror_loop_iterations R _ _ Step 0%Z (initial w))
    as (os & w' & tr1 & E1 & It).
  cbn [initial locals results successCount app] in E1. rewrite Z.add_0_l in E1.
  destruct (run_loop_returns w v _ _ P (forallb_descriptor_passes _ D) E1)
    as (tr & E & C & O & F).
  destruct (iterations_all_success R _ _ _ (fun _ _ _ r => proj1 r) It) as [Sa Sc].
  pose proof (iterations_calls_between R 5 5 _ _ _
                (fun _ _ t r => conj (Nat.eq_le_incl _ _ (eq_sym (proj2 r)))
                                     (Nat.eq_le_incl _ _ (proj2 r))) It) as B.
  rewrite E. cbn [fst snd locals results successCount] in *.
  rewrite C, F, Sc, Z.eqb_refl. repeat split; auto.
  - apply (iterations_length _ _ _ _ It).
  - lia.
Qed.


(** Whatever the engine does, a batch of [n] descriptors asks it at
    least [n] and at most [5 n] invocations. *)
Theorem engine_calls_per_descriptor (w : World) (v : jsval) :
  input_parses_to v ->
  forallb is_descriptor (as_array v) = true ->
  (List.length (as_array v) <= List.length (docker_calls (snd (run_action w)))
   <= 5 * List.length (as_array v))%nat.
Proof.
  intros P D.
  set (R := fun (image o : jsval) (tr : list event) =>
              exists rest, docker_calls tr = descriptor_pull image :: rest
                           /\ filter is_pull rest = []
                           /\ (List.length rest <= 4)%nat).
  assert (Step : forall image, In image (as_array v) ->
            forall i st, exists o w' tr,
              mirror_image (Z.of_nat (List.length (as_array v))) i image st
              = (inr tt,
                 mkState (mkLocals (results (locals st) ++ [o])%list
                            (successCount (locals st)
                             + (if is_success o then 1 else 0))) w', tr)
              /\ R image o tr).
  { intros image Hin i st.
    apply mirror_image_descriptor_calls.
    apply (proj1 (forallb_forall _ _) D _ Hin). }
  destruct (mirror_loop_iterations R _ _ Step 0%Z (initial w))
    as (os & w' & tr1 & E1 & It).
  cbn [initial locals results successCount app] in E1. rewrite Z.add_0_l in E1.
  destruct (run_loop_returns w v _ _ P (forallb_descriptor_passes _ D) E1)
    as (tr & E & C & _).
  assert (B : forall image o t, R image o t ->
                                (1 <= List.length (docker_calls t) <= 5)%nat).
  { intros image o t (rest & Ec & _ & Hl). rewrite Ec. cbn [List.length]. lia. }
  pose proof (iterations_calls_between R 1 5 _ _ _ B It).
  rewrite E. cbn [snd]. rewrite C. lia.
Qed.

(** The isolation of failures reaches beyond descriptors: for a list
    of elements that pass the check and whose sources and destinations
    can be interpolated (strings, numbers, booleans, plain objects),
    the run leaves one outcome per element, in order, and sets the
    three outputs. *)
Theorem interpolable_elements_are_isolated (w : World) (v : jsval) :
  input_parses_to v ->
  forallb interpolable (as_array v) = true ->
  List.length (results (locals (snd (fst (run_action w)))))
  = List.length (as_array v)
  /\ map (field "source") (results (locals (snd (fst (run_action w)))))
     = map (field "source") (as_array v)
  /\ map (field "destination") (results (locals (snd (fst (run_action w)))))
     = map (field "destination") (as_array v)
  /\ Forall (fun o => is_failed o = negb (is_success o))
       (results (locals (snd (fst (run_action w)))))
  /\ outputs (snd (run_action w))
     = [("results", JSON_stringify_array (results (locals (snd (fst (run_action w))))));
        ("success-count", dec (successCount (locals (snd (fst (run_action w))))));
        ("total-count", dec (Z.of_nat (List.length (as_array v))))].
Proof.
  intros P I.
  set (R := fun (image o : jsval) (tr : list event) =>
              field "source" o = field "source" image
              /\ field "destination" o = field "destination" image
              /\ is_failed o = negb (is_success o)).
  assert (Step : forall image, In image (as_array v) ->
            forall i st, exists o w' tr,
              mirror_image (Z.of_nat (List.length (as_array v))) i image st
              = (inr tt,
                 mkState (mkLocals (results (locals st) ++ [o])%list
                            (successCount (locals st)
                             + (if is_success o then 1 else 0))) w', tr)
              /\ R image o tr).
  { intros image Hin i st.
    apply mirror_image_isolated. apply (proj1 (forallb_forall _ _) I _ Hin). }
  destruct (mirror_loop_iterations R _ _ Step 0%Z (initial w))
    as (os & w' & tr1 & E1 & It).
  cbn [initial locals results successCount app] in E1. rewrite Z.add_0_l in E1.
  destruct (run_loop_returns w v _ _ P (interpolable_passes _ I) E1)
    as (tr & E & _ & O & _).
  rewrite E. cbn [fst snd locals results successCount] in *.
  repeat split.
  - apply (iterations_length _ _ _ _ It).
  - apply (iterations_fields R "source" _ _ _ (fun _ _ _ r => proj1 r) It).
  - apply (iterations_fields R "destination" _ _ _
             (fun _ _ _ r => proj1 (proj2 r)) It).
  - apply (iterations_outcomes R _ _ _ _ (fun _ _ _ r => proj2 (proj2 r)) It).
  - exact O.
Qed.

(** The isolation has a limit. When an element passes the check but
    its source or its destination cannot be interpolated into the log
    lines, the error thrown while reporting its failure leaves the
    loop: the run signals that error as its one failure and sets no
    output, although the descriptors before that element have been
    mirrored and their outcomes recorded; the elements after it are
    never attempted. *)
Theorem uninterpolable_element_aborts_run (w : World) (v : jsval)
    (pre rest : list jsval) (bad : jsval) (e : exn) :
  input_parses_to v ->
  as_array v = (pre ++ bad :: rest)%list ->
  forallb is_descriptor pre = true ->
  forallb passes_check (bad :: rest) = true ->
  ToString (field "source" bad) = inl e
  \/ (exists s, ToString (field "source" bad) = inr s)
     /\ ToString (field "destination" bad) = inl e ->
  outputs (snd (run_action w)) = []
  /\ failures (snd (run_action w)) = ["Action failed with error: " ++ message e]
  /\ filter is_pull (docker_calls (snd (run_action w))) = map descriptor_pull pre
  /\ List.length (results (locals (snd (fst (run_action w))))) = List.length pre.
Proof.
  intros P A Dp Vr T.
  assert (V : forallb passes_check (as_array v) = true).
  { rewrite A, forallb_app, (forallb_descriptor_passes _ Dp). exact Vr. }
  cbn [forallb] in Vr. apply andb_prop in Vr. destruct Vr as [Pb _].
  set (n := Z.of_nat (List.length (as_array v))) in *.
  destruct (mirror_loop_descriptors n pre 0%Z (initial w) Dp)
    as (os & w1 & tr1 & E1 & Ms & _ & _ & C1 & _).
  assert (E : exists st1,
             mirror_loop n 0 (as_array v) (initial w) = (inl e, st1, tr1)
             /\ results (locals st1) = os).
  { eexists. rewrite A, mirror_loop_app. unfold bind at 1. rewrite E1.
    cbn [mirror_loop]. unfold bind. rewrite (mirror_image_aborts _ _ _ _ e Pb T).
    rewrite app_nil_r. split; reflexivity. }
  destruct E as (st1 & E & Rs).
  destruct (run_loop_throws w v e st1 tr1 P V E) as (tr & Er & C & O & F).
  rewrite Er. cbn [fst snd]. rewrite C, Rs. repeat split; auto.
  rewrite <- (length_map (field "source") os), Ms. apply length_map.
Qed.

End Further.

(** ** The further properties on concrete runs *)

(** The input is one descriptor object, not wrapped in an array. *)
Definition single_object_host : Host :=
  scripted_host (descriptor_text "a:1" "b:1" "linux/amd64") EmptyString (inr image_a)
    (fun _ => inr EmptyString).

(** An engine that does whatever it is asked. *)
Definition reliable_host : Host :=
  scripted_host two_images_text EmptyString (inr two_images) (fun _ => inr "ok").


(** A descriptor without destination after a good one. *)
Definition image_without_destination : jsval :=
  JObject [("source", JString "x:1"); ("architecture", JString "linux/arm64")].

Definition missing_destination_host : Host :=
  scripted_host "[...]" EmptyString (inr (JArray [image_a; image_without_destination]))
    (fun _ => inr EmptyString).

(** An element whose source is the boolean [true]. *)
Definition image_with_boolean_source : jsval :=
  JObject [("source", JBool true); ("destination", JString "b:1");
           ("architecture", JString "linux/amd64")].

Definition boolean_source_host : Host :=
  scripted_host "[...]" EmptyString (inr (JArray [image_with_boolean_source]))
    (fun _ => inr EmptyString).

(** An element whose source is an object with an own [toString]
    property, between two descriptors. *)
Definition image_with_object_source : jsval :=
  JObject [("source", JObject [("toString", JNull)]); ("destination", JString "b:1");
           ("architecture", JString "linux/amd64")].

Definition object_source_host : Host :=
  scripted_host "[...]" EmptyString
    (inr (JArray [image_a; image_with_object_source; image_x]))
    (fun _ => inr EmptyString).

Lemma missing_field_fails_fast_witness :
  failures (snd (@run_action missing_destination_host 0%nat))
  = ["Action failed with error: " ++ msg_missing_field]
  /\ docker_calls (snd (@run_action missing_destination_host 0%nat)) = [].
Proof.
  destruct (@missing_field_fails_fast missing_destination_host 0%nat
              (JArray [image_a; image_without_destination])
              [image_a] [] image_without_destination)
    as (_ & C & _ & F).
  - left. repeat split; try reflexivity. discriminate.
  - reflexivity.
  - reflexivity.
  - discriminate.
  - discriminate.
  - reflexivity.
  - split; assumption.
Defined.

Lemma single_value_is_a_batch_of_one_witness :
  exists o,
    results (locals (snd (fst (@run_action single_object_host 0%nat)))) = [o]
    /\ field "source" o = JString "a:1".
Proof.
  destruct (@single_value_is_a_batch_of_one single_object_host 0%nat image_a)
    as (o & E & S & _).
  - left. repeat split; try reflexivity. discriminate.
  - reflexivity.
  - exists o. split; assumption.
Defined.

Lemma full_success_outcome_witness :
  exists tr,
    @mirror_image reliable_host 2 0 image_a (@initial reliable_host 0%nat)
    = (inr tt,
       @mkState reliable_host run_locals
         (mkLocals
            [JObject [("source", JString "a:1"); ("destination", JString "b:1");
                      ("digest", JString "ok"); ("size", JString "ok");
                      ("status", JString "success")]] 1) 5%nat,
       tr).
Proof.
  destruct (@full_success_outcome reliable_host 2 0 image_a "a:1" "b:1" "linux/amd64"
              (@initial reliable_host 0%nat) 3%nat 4%nat 5%nat "ok" "ok")
    as (tr & E & _).
  - unfold describes. repeat split; try reflexivity; discriminate.
  - exists 1%nat, "ok", 2%nat, "ok", "ok". repeat split; reflexivity.
  - reflexivity.
  - reflexivity.
  - exists tr. exact E.
Defined.

Lemma reliable_engine_mirrors_everything_witness :
  successCount (locals (snd (fst (@run_action reliable_host 0%nat)))) = 2%Z
  /\ List.length (docker_calls (snd (@run_action reliable_host 0%nat))) = 10%nat.
Proof.
  destruct (@reliable_engine_mirrors_everything reliable_host 0%nat two_images)
    as (_ & _ & S & _ & C).
  - left. repeat split; try reflexivity. discriminate.
  - reflexivity.
  - intros args w0. exists (S w0), "ok". reflexivity.
  - split; assumption.
Defined.


Lemma engine_calls_per_descriptor_witness :
  (2 <= List.length (docker_calls (snd (@run_action second_pull_fails_host 0%nat)))
   <= 10)%nat.
Proof.
  refine (@engine_calls_per_descriptor second_pull_fails_host 0%nat two_images _ _).
  - left. repeat split; try reflexivity. discriminate.
  - reflexivity.
Defined.

Lemma interpolable_elements_are_isolated_witness :
  map (field "source")
    (results (locals (snd (fst (@run_action boolean_source_host 0%nat)))))
  = [JBool true].
Proof.
  refine (proj1 (proj2
            (@interpolable_elements_are_isolated boolean_source_host 0%nat
               (JArray [image_with_boolean_source]) _ _))).
  - left. repeat split; try reflexivity. discriminate.
  - reflexivity.
Defined.

Lemma uninterpolable_element_aborts_run_witness :
  outputs (snd (@run_action object_source_host 0%nat)) = []
  /\ failures (snd (@run_action object_source_host 0%nat))
     = ["Action failed with error: Cannot convert object to primitive value"]
  /\ List.length (results (locals (snd (fst (@run_action object_source_host 0%nat)))))
     = 1%nat.
Proof.
  destruct (@uninterpolable_element_aborts_run object_source_host 0%nat
              (JArray [image_a; image_with_object_source; image_x])
              [image_a] [image_x] image_with_object_source TypeError_primitive)
    as (O & F & _ & L).
  - left. repeat split; try reflexivity. discriminate.
  - reflexivity.
  - reflexivity.
  - reflexivity.
  - left. reflexivity.
  - repeat split; assumption.
Defined.

(** ** The three phases of a run *)

Section Phases.

Context {H : Host}.

Lemma read_images_no_calls {L} (st : state L) :
  docker_calls (snd (read_images st)) = [].
Proof.
  unfold read_images.
  destruct (str_truthy (getInput "images")), (str_truthy (getInput "images-file"));
    cbn [negb andb]; try reflexivity;
    unfold try_catch, bind, lift, ret, throw, info, emit.
  - destruct (JSON_parse (getInput "images")); reflexivity.
  - destruct (readFileSync (getInput "images-file")) as [e | content]; [reflexivity |].
    destruct (JSON_parse content); reflexivity.
Qed.

Lemma validate_returns_passes {L} (images : list jsval) (st : state L) :
  fst (fst (validate images st)) = inr tt -> forallb passes_check images = true.
Proof.
  induction images as [| image rest IH]; [reflexivity |].
  cbn [validate forallb]. unfold bind.
  destruct (passes_check image) eqn:P.
  - rewrite (check_image_passes _ _ P).
    destruct (validate rest st) as [[r st'] tr]. cbn [fst snd andb] in *. exact IH.
  - destruct (check_image_rejects image st P) as (e & E). rewrite E.
    cbn [fst]. discriminate.
Qed.

(** An engine invocation of the loop is an invocation of one of its
    iterations. *)
Lemma mirror_loop_calls_from_iterations (len : Z) (images : list jsval)
    (args : list jsval) :
  forall i st,
    In args (docker_calls (snd (mirror_loop len i images st))) ->
    exists image i' st',
      In image images
      /\ In args (docker_calls (snd (mirror_image len i' image st'))).
Proof.
  induction images as [| image rest IH]; intros i st Hin; [destruct Hin |].
  cbn [mirror_loop] in Hin. unfold bind in Hin.
  destruct (mirror_image len i image st) as [[[e | []] st1] tr1] eqn:E1.
  - exists image, i, st. rewrite E1. split; [left; reflexivity | exact Hin].
  - destruct (mirror_loop len (i + 1) rest st1) as [[r st2] tr2] eqn:E2.
    cbn [snd] in Hin. rewrite docker_calls_app in Hin.
    apply in_app_or in Hin. destruct Hin as [Hin | Hin].
    + exists image, i, st. rewrite E1. split; [left; reflexivity | exact Hin].
    + destruct (IH (i + 1)%Z st1) as (im & i' & st' & Im & Ia).
      { rewrite E2. exact Hin. }
      exists im, i', st'. split; [right; exact Im | exact Ia].
Qed.

(** A run has three phases: reading and validating the input, the
    loop, and the report (or the signalling of the error that ended
    the run). Only the loop talks to the engine, and it runs on a list
    that passed validation; only the last phase sets outputs or
    signals a failure. *)
Lemma run_phases (w : World) :
  exists tr_in tr_loop tr_out,
    snd (run_action w) = (tr_in ++ tr_loop ++ tr_out)%list
    /\ docker_calls tr_in = [] /\ outputs tr_in = [] /\ failures tr_in = []
    /\ outputs tr_loop = [] /\ failures tr_loop = []
    /\ docker_calls tr_out = []
    /\ (tr_loop = []
        \/ exists images st,
            forallb passes_check images = true
            /\ tr_loop = snd (mirror_loop (Z.of_nat (List.length images)) 0 images st)).
Proof.
  unfold run_action, run, try_catch. fold (initial w).
  unfold bind at 1.
  pose proof (read_images_quiet (initial w)) as Q0.
  pose proof (read_images_no_calls (initial w)) as C0.
  destruct (read_images (initial w)) as [[[e | images] st1] tr0]; cbn [snd] in Q0, C0;
    apply quiet_trace in Q0; destruct Q0 as [O0 F0].
  { unfold setFailed, emit. exists tr0, [], [SetFailed ("Action failed with error: "
                                                          ++ message e)].
    cbn [snd app]. repeat split; auto. }
  unfold bind at 1.
  destruct (validate_pure images st1) as (Vs & Vt).
  pose proof (validate_returns_passes images st1) as Vp.
  destruct (validate images st1) as [[[e | []] st2] trv]; cbn [fst snd] in Vs, Vt, Vp;
    subst.
  { unfold setFailed, emit. exists tr0, [], [SetFailed ("Action failed with error: "
                                                          ++ message e)].
    cbn [snd app]. rewrite app_nil_r. repeat split; auto. }
  unfold bind, info, emit, update. cbn [locals world].
  set (n := Z.of_nat (List.length images)).
  pose proof (mirror_loop_quiet n images 0%Z (mkState (mkLocals [] 0) (world st1))) as Q1.
  exists (tr0 ++ [Info ("Starting mirror process for " ++ dec n ++ " image(s)")])%list,
    (snd (mirror_loop n 0 images (mkState (mkLocals [] 0) (world st1)))).
  destruct (mirror_loop n 0 images (mkState (mkLocals [] 0) (world st1)))
    as [[[e | []] st2] tr1] eqn:E1; cbn [snd] in Q1 |- *;
    apply quiet_trace in Q1; destruct Q1 as [O1 F1].
  - unfold setFailed, emit.
    exists [SetFailed ("Action failed with error: " ++ message e)].
    cbn [snd]. rewrite docker_calls_app, outputs_app, failures_app, C0, O0, F0.
    repeat split; auto.
    + cbn [app]. rewrite <- !app_assoc. reflexivity.
    + right. exists images, (mkState (mkLocals [] 0) (world st1)).
      fold n. rewrite E1. split; [apply Vp |]; reflexivity.
  - destruct (report_trace n st2) as (tr2 & E2 & C2 & _). rewrite E2.
    exists tr2.
    cbn [snd]. rewrite docker_calls_app, outputs_app, failures_app, C0, O0, F0.
    repeat split; auto.
    + cbn [app]. rewrite <- !app_assoc. reflexivity.
    + right. exists images, (mkState (mkLocals [] 0) (world st1)).
      fold n. rewrite E1. split; [apply Vp |]; reflexivity.
Qed.

(** Whatever the input and the engine, the action never pulls without
    a platform: every pull of a run has the form
    [pull --platform <architecture> <source>], with an architecture
    and a source that are truthy. *)
Theorem run_never_pulls_without_platform (w : World) (args : list jsval) :
  In args (docker_calls (snd (run_action w))) ->
  is_pull args = true ->
  exists arch src,
    args = [JString "pull"; JString "--platform"; arch; src]
    /\ truthy arch = true /\ truthy src = true.
Proof.
  intros Hin Hp.
  destruct (run_phases w) as (tr_in & tr_loop & tr_out & E & Ci & _ & _ & _ & _ & Co & L).
  rewrite E, !docker_calls_app, Ci, Co, app_nil_r in Hin. cbn [app] in Hin.
  destruct L as [-> | (images & st & V & ->)]; [destruct Hin |].
  destruct (mirror_loop_calls_from_iterations _ _ _ _ _ Hin)
    as (image & i' & st' & Im & Ia).
  pose proof (proj1 (forallb_forall _ _) V _ Im) as P.
  assert (T : truthy (field "source" image) = true
              /\ truthy (field "architecture" image) = true).
  { destruct image; try discriminate P; cbn [passes_check] in P;
      apply andb_prop in P; destruct P as [P Ta]; apply andb_prop in P;
      destruct P as [Ts _]; split; assumption. }
  destruct T as [Ts Ta].
  exists (field "architecture" image), (field "source" image).
  split; [| split; assumption].
  destruct (mirror_image_calls (Z.of_nat (List.length images)) i' image st')
    as [E0 | (rest & E0 & N)]; rewrite E0 in Ia; [destruct Ia |].
  destruct Ia as [<- | Ia].
  - apply pull_args_platform, Ta.
  - assert (X : In args (filter is_pull rest)) by (apply filter_In; auto).
    rewrite N in X. destruct X.
Qed.

(** Whatever the input and the engine, reporting comes last: the
    trace of a run splits into a first part, in which no output is set
    and no failure signalled, and a second part, in which nothing is
    asked of the engine. So the engine is never invoked once an output
    has been set or a failure signalled. *)
Theorem run_reports_after_the_engine (w : World) :
  exists before after,
    snd (run_action w) = (before ++ after)%list
    /\ outputs before = [] /\ failures before = []
    /\ docker_calls after = [].
Proof.
  destruct (run_phases w) as (tr_in & tr_loop & tr_out & E & _ & Oi & Fi & Ol & Fl & Co & _).
  exists (tr_in ++ tr_loop)%list, tr_out.
  rewrite E, outputs_app, failures_app, Oi, Fi, Ol, Fl, <- app_assoc.
  repeat split; auto.
Qed.

End Phases.

Lemma run_never_pulls_without_platform_witness :
  exists arch src,
    [JString "pull"; JString "--platform"; JString "linux/amd64"; JString "a:1"]
    = [JString "pull"; JString "--platform"; arch; src]
    /\ truthy arch = true /\ truthy src = true.
Proof.
  apply (@run_never_pulls_without_platform reliable_host 0%nat).
  - vm_compute. left. reflexivity.
  - reflexivity.
Defined.

(** ** Where the isolation of failures is missed *)

Section Missed.

Context {H : Host}.

(** The handler of line 84 interpolates the source and the destination
    into its error line before it records the failure. For an element
    that passed the check of line 39 but whose source or destination
    cannot be interpolated, the handler itself throws: the error
    leaves the loop and reaches the catch of line 108. *)
Lemma run_aborted_in_handler (w : World) (v : jsval)
    (pre rest : list jsval) (bad : jsval) (e : exn) :
  input_parses_to v ->
  as_array v = (pre ++ bad :: rest)%list ->
  forallb is_descriptor pre = true ->
  forallb passes_check (bad :: rest) = true ->
  ToString (field "source" bad) = inl e
  \/ (exists s, ToString (field "source" bad) = inr s)
     /\ ToString (field "destination" bad) = inl e ->
  forallb passes_check (as_array v) = true
  /\ exists st tr os,
      run_action w = (inr tt, st, tr)
      /\ results (locals st) = os
      /\ map (field "source") os = map (field "source") pre
      /\ filter is_pull (docker_calls tr) = map descriptor_pull pre
      /\ outputs tr = []
      /\ failures tr = ["Action failed with error: " ++ message e].
Proof.
  intros P A Dp Vr T.
  assert (V : forallb passes_check (as_array v) = true).
  { rewrite A, forallb_app, (forallb_descriptor_passes _ Dp). exact Vr. }
  split; [exact V |].
  cbn [forallb] in Vr. apply andb_prop in Vr. destruct Vr as [Pb _].
  set (n := Z.of_nat (List.length (as_array v))) in *.
  destruct (mirror_loop_descriptors n pre 0%Z (initial w) Dp)
    as (os & w1 & tr1 & E1 & Ms & _ & _ & C1 & _).
  assert (E : exists st1,
             mirror_loop n 0 (as_array v) (initial w) = (inl e, st1, tr1)
             /\ results (locals st1) = os).
  { eexists. rewrite A, mirror_loop_app. unfold bind at 1. rewrite E1.
    cbn [mirror_loop]. unfold bind. rewrite (mirror_image_aborts _ _ _ _ e Pb T).
    rewrite app_nil_r. split; reflexivity. }
  destruct E as (st1 & E & Rs).
  destruct (run_loop_throws w v e st1 tr1 P V E) as (tr & Er & C & O & F).
  exists st1, tr, os. rewrite C. repeat split; auto.
Qed.

(** C2, at the elements the isolation misses. The list passed the
    validation of lines 38-42, and one of its elements has a source or
    a destination that cannot be interpolated. Then the failure of
    that element is not isolated: the run leaves outcomes only for the
    descriptors before it, fewer than the elements of the list, and
    the only pulls asked of the engine are those of the descriptors
    before it, so that neither this element nor any element after it
    is attempted. *)
Theorem handler_failure_stops_the_batch (w : World) (v : jsval)
    (pre rest : list jsval) (bad : jsval) (e : exn) :
  input_parses_to v ->
  as_array v = (pre ++ bad :: rest)%list ->
  forallb is_descriptor pre = true ->
  forallb passes_check (bad :: rest) = true ->
  ToString (field "source" bad) = inl e
  \/ (exists s, ToString (field "source" bad) = inr s)
     /\ ToString (field "destination" bad) = inl e ->
  forallb passes_check (as_array v) = true
  /\ List.length (results (locals (snd (fst (run_action w))))) = List.length pre
  /\ (List.length (results (locals (snd (fst (run_action w)))))
      < List.length (as_array v))%nat
  /\ filter is_pull (docker_calls (snd (run_action w))) = map descriptor_pull pre
  /\ List.length (filter is_pull (docker_calls (snd (run_action w))))
     = List.length pre.
Proof.
  intros P A Dp Vr T.
  destruct (run_aborted_in_handler w v pre rest bad e P A Dp Vr T)
    as (V & st & tr & os & E & Rs & Ms & C & _).
  rewrite E. cbn [fst snd]. rewrite Rs, C.
  assert (L : List.length os = List.length pre)
    by (rewrite <- (length_map (field "source") os), Ms; apply length_map).
  repeat split; auto.
  - rewrite L, A, length_app. cbn [List.length]. lia.
  - apply length_map.
Qed.

(** C6, at the elements the isolation misses. The list passed the
    validation of lines 38-42, and one of its elements has a source or
    a destination that cannot be interpolated. Then the report of
    lines 97-106 is never reached: no output is set, although the
    descriptors before that element have their outcomes recorded, and
    the one failure signalled is the error that left the loop, not the
    count of the images that failed. *)
Theorem handler_failure_suppresses_the_outputs (w : World) (v : jsval)
    (pre rest : list jsval) (bad : jsval) (e : exn) :
  input_parses_to v ->
  as_array v = (pre ++ bad :: rest)%list ->
  forallb is_descriptor pre = true ->
  forallb passes_check (bad :: rest) = true ->
  ToString (field "source" bad) = inl e
  \/ (exists s, ToString (field "source" bad) = inr s)
     /\ ToString (field "destination" bad) = inl e ->
  forallb passes_check (as_array v) = true
  /\ outputs (snd (run_action w)) = []
  /\ failures (snd (run_action w)) = ["Action failed with error: " ++ message e]
  /\ List.length (results (locals (snd (fst (run_action w))))) = List.length pre.
Proof.
  intros P A Dp Vr T.
  destruct (run_aborted_in_handler w v pre rest bad e P A Dp Vr T)
    as (V & st & tr & os & E & Rs & Ms & _ & O & F).
  rewrite E. cbn [fst snd]. rewrite Rs.
  repeat split; auto.
  rewrite <- (length_map (field "source") os), Ms. apply length_map.
Qed.

End Missed.

Lemma handler_failure_stops_the_batch_witness :
  List.length (results (locals (snd (fst (@run_action object_source_host 0%nat)))))
  = 1%nat
  /\ filter is_pull (docker_calls (snd (@run_action object_source_host 0%nat)))
     = [[JString "pull"; JString "--platform"; JString "linux/amd64"; JString "a:1"]].
Proof.
  destruct (@handler_failure_stops_the_batch object_source_host 0%nat
              (JArray [image_a; image_with_object_source; image_x])
              [image_a] [image_x] image_with_object_source TypeError_primitive)
    as (_ & L & _ & C & _).
  - left. repeat split; try reflexivity. discriminate.
  - reflexivity.
  - reflexivity.
  - reflexivity.
  - left. reflexivity.
  - split; assumption.
Defined.

Lemma handler_failure_suppresses_the_outputs_witness :
  outputs (snd (@run_action object_source_host 0%nat)) = []
  /\ failures (snd (@run_action object_source_host 0%nat))
     = ["Action failed with error: Cannot convert object to primitive value"].
Proof.
  destruct (@handler_failure_suppresses_the_outputs object_source_host 0%nat
              (JArray [image_a; image_with_object_source; image_x])
              [image_a] [image_x] image_with_object_source TypeError_primitive)
    as (_ & O & F & _).
  - left. repeat split; try reflexivity. discriminate.
  - reflexivity.
  - reflexivity.
  - reflexivity.
  - left. reflexivity.
  - split; assumption.
Defined.
